(** * GitHub status synchroniser: a shallow embedding of the service class

    The development follows the service class of the extension (the file
    imported by [extension.ts] as [./service/github]) and the command
    handlers of [extension.ts] that drive it.

    Conventions of the embedding.
    - An instant ([moment()], [Date.now()], [new Date().getTime()]) is an
      integer number of milliseconds, a [Z].
    - [a.diff(b, "minutes")] of the moment library is the difference in
      milliseconds divided by 60000 and truncated toward zero: [Z.quot].
    - [new Date(ms).toISOString()] is kept as the instant [ms] it renders;
      the [RangeError] it raises on an instant that a [Date] cannot hold
      ([validDate]) is not followed.
    - An [async] method is run to completion in one step: no other handler
      is interleaved at an [await].
    - What the host answers during a call (the quick-pick choice, the clock
      readings, the outcome of the remote mutation, of the fetch, of the
      store) is an explicit argument of the call. *)

From Stdlib Require Import ZArith Lia DecimalString.
From stdpp Require Import base option list strings gmap sorting.

Local Open Scope Z_scope.

(** ** Data *)

Record EmojiCacheItem := mkItem { name : string; url : string }.

(** [interface UserStatus]; every field is optional in the source. *)
Record UserStatus := mkStatus {
  emoji : option string;
  expiresAt : option Z;
  message : option string
}.

(** A handle returned by [setInterval], with the closure it runs,
    [() => this.updateStatus(workspace)], and the delay in milliseconds
    that was passed with it, [t_period]; the runtime fires the closure
    every [effectiveDelay t_period] milliseconds. *)
Record Timer := mkTimer { t_id : nat; t_workspace : string; t_period : Z }.

(** The private fields of the service class. [__emojis] is the object used
    as a name-to-url dictionary; [__context] only records whether an
    extension context was supplied. *)
Record Service := mkService {
  __expires : Z;
  __start : option Z;
  __currentLanguage : option string;
  __emojis : gmap string string;
  __emojiCache : list EmojiCacheItem;
  __context : bool;
  __lastActivity : Z;
  __idleTimeout : Z;
  __isIdle : bool
}.

(** The host: configuration section [githubstatus], the workspace name, the
    global state store of the extension context, the remote status
    endpoint, the console, the timers of the runtime, and the module-level
    variables of [extension.ts]. *)
Record Host := mkHost {
  cfg_emoji : option string;
  cfg_emojiDefault : option string;
  cfg_default : option string;
  workspace_name : option string;
  gs_emojiCache : option (list EmojiCacheItem);
  gs_emojiCacheTimestamp : option Z;
  apiCalls : list UserStatus;
  remoteStatus : option UserStatus;
  fetches : nat;
  console : list string;
  timers : list Timer;
  nextTimer : nat;
  interval : option nat;
  isActive : bool
}.

Record State := mkState { svc : Service; host : Host }.

(** ** Constants *)

Definition OFFSET : Z := 10000.
Definition CACHE_EXPIRY_HOURS : Z := 24.

(** ** Field updates *)

Definition set_svc (f : Service -> Service) (s : State) : State :=
  mkState (f (svc s)) (host s).

Definition set_host (f : Host -> Host) (s : State) : State :=
  mkState (svc s) (f (host s)).

Definition with_start (v : option Z) (c : Service) : Service :=
  mkService (__expires c) v (__currentLanguage c) (__emojis c) (__emojiCache c)
            (__context c) (__lastActivity c) (__idleTimeout c) (__isIdle c).

Definition with_currentLanguage (v : option string) (c : Service) : Service :=
  mkService (__expires c) (__start c) v (__emojis c) (__emojiCache c)
            (__context c) (__lastActivity c) (__idleTimeout c) (__isIdle c).

Definition with_emojis (v : gmap string string) (c : Service) : Service :=
  mkService (__expires c) (__start c) (__currentLanguage c) v (__emojiCache c)
            (__context c) (__lastActivity c) (__idleTimeout c) (__isIdle c).

Definition with_emojiCache (v : list EmojiCacheItem) (c : Service) : Service :=
  mkService (__expires c) (__start c) (__currentLanguage c) (__emojis c) v
            (__context c) (__lastActivity c) (__idleTimeout c) (__isIdle c).

Definition with_lastActivity (v : Z) (c : Service) : Service :=
  mkService (__expires c) (__start c) (__currentLanguage c) (__emojis c)
            (__emojiCache c) (__context c) v (__idleTimeout c) (__isIdle c).

Definition with_isIdle (v : bool) (c : Service) : Service :=
  mkService (__expires c) (__start c) (__currentLanguage c) (__emojis c)
            (__emojiCache c) (__context c) (__lastActivity c) (__idleTimeout c) v.

Definition with_cfg_emoji (v : option string) (h : Host) : Host :=
  mkHost v (cfg_emojiDefault h) (cfg_default h) (workspace_name h)
         (gs_emojiCache h) (gs_emojiCacheTimestamp h) (apiCalls h)
         (remoteStatus h) (fetches h) (console h) (timers h) (nextTimer h)
         (interval h) (isActive h).

Definition with_gs_emojiCache (v : option (list EmojiCacheItem)) (h : Host) : Host :=
  mkHost (cfg_emoji h) (cfg_emojiDefault h) (cfg_default h) (workspace_name h)
         v (gs_emojiCacheTimestamp h) (apiCalls h)
         (remoteStatus h) (fetches h) (console h) (timers h) (nextTimer h)
         (interval h) (isActive h).

Definition with_gs_emojiCacheTimestamp (v : option Z) (h : Host) : Host :=
  mkHost (cfg_emoji h) (cfg_emojiDefault h) (cfg_default h) (workspace_name h)
         (gs_emojiCache h) v (apiCalls h)
         (remoteStatus h) (fetches h) (console h) (timers h) (nextTimer h)
         (interval h) (isActive h).

Definition with_apiCalls (v : list UserStatus) (h : Host) : Host :=
  mkHost (cfg_emoji h) (cfg_emojiDefault h) (cfg_default h) (workspace_name h)
         (gs_emojiCache h) (gs_emojiCacheTimestamp h) v
         (remoteStatus h) (fetches h) (console h) (timers h) (nextTimer h)
         (interval h) (isActive h).

Definition with_remoteStatus (v : option UserStatus) (h : Host) : Host :=
  mkHost (cfg_emoji h) (cfg_emojiDefault h) (cfg_default h) (workspace_name h)
         (gs_emojiCache h) (gs_emojiCacheTimestamp h) (apiCalls h)
         v (fetches h) (console h) (timers h) (nextTimer h)
         (interval h) (isActive h).

Definition with_fetches (v : nat) (h : Host) : Host :=
  mkHost (cfg_emoji h) (cfg_emojiDefault h) (cfg_default h) (workspace_name h)
         (gs_emojiCache h) (gs_emojiCacheTimestamp h) (apiCalls h)
         (remoteStatus h) v (console h) (timers h) (nextTimer h)
         (interval h) (isActive h).

Definition with_console (v : list string) (h : Host) : Host :=
  mkHost (cfg_emoji h) (cfg_emojiDefault h) (cfg_default h) (workspace_name h)
         (gs_emojiCache h) (gs_emojiCacheTimestamp h) (apiCalls h)
         (remoteStatus h) (fetches h) v (timers h) (nextTimer h)
         (interval h) (isActive h).

Definition with_timers (v : list Timer) (n : nat) (h : Host) : Host :=
  mkHost (cfg_emoji h) (cfg_emojiDefault h) (cfg_default h) (workspace_name h)
         (gs_emojiCache h) (gs_emojiCacheTimestamp h) (apiCalls h)
         (remoteStatus h) (fetches h) (console h) v n
         (interval h) (isActive h).

Definition with_interval (v : option nat) (h : Host) : Host :=
  mkHost (cfg_emoji h) (cfg_emojiDefault h) (cfg_default h) (workspace_name h)
         (gs_emojiCache h) (gs_emojiCacheTimestamp h) (apiCalls h)
         (remoteStatus h) (fetches h) (console h) (timers h) (nextTimer h)
         v (isActive h).

Definition with_isActive (v : bool) (h : Host) : Host :=
  mkHost (cfg_emoji h) (cfg_emojiDefault h) (cfg_default h) (workspace_name h)
         (gs_emojiCache h) (gs_emojiCacheTimestamp h) (apiCalls h)
         (remoteStatus h) (fetches h) (console h) (timers h) (nextTimer h)
         (interval h) v.

(** ** Computations: state and exceptions

    A method either returns a value or throws; in both cases the state it
    leaves behind is kept. *)

Inductive Completion (A : Type) : Type :=
| Returned (a : A)
| Threw (err : string).
Arguments Returned {A} a.
Arguments Threw {A} err.

Definition M (A : Type) : Type := State -> Completion A * State.

Definition ret {A} (a : A) : M A := fun s => (Returned a, s).

Definition bind {A B} (m : M A) (k : A -> M B) : M B :=
  fun s => match m s with
           | (Returned a, s') => k a s'
           | (Threw e, s') => (Threw e, s')
           end.

Definition throw {A} (e : string) : M A := fun s => (Threw e, s).

(** [try { body } catch (err) { handler err }] *)
Definition tryCatch {A} (body : M A) (handler : string -> M A) : M A :=
  fun s => match body s with
           | (Returned a, s') => (Returned a, s')
           | (Threw e, s') => handler e s'
           end.

(** [try-block finally { return v; }]: the [return] of the [finally] block
    replaces whatever completion the block before it had. *)
Definition finallyReturn {A B} (body : M A) (v : B) : M B :=
  fun s => (Returned v, snd (body s)).

Definition get : M State := fun s => (Returned s, s).
Definition modify (f : State -> State) : M unit := fun s => (Returned tt, f s).

Notation "x <- m ;; k" := (bind m (fun x => k))
  (at level 100, m at next level, right associativity, only parsing).
Notation "m >> k" := (bind m (fun _ => k))
  (at level 100, right associativity, only parsing).

Definition result {A} (r : Completion A * State) : Completion A := fst r.
Definition after {A} (r : Completion A * State) : State := snd r.

(** ** JavaScript values *)

(** Truthiness of a [string | undefined]: [undefined] and the empty string
    are falsy. *)
Definition truthy (o : option string) : bool :=
  match o with
  | Some s => negb (String.eqb s "")
  | None => false
  end.

(** [`${n}`] for an integer [n]. *)
Definition toString (n : Z) : string := NilZero.string_of_int (Z.to_int n).

(** [a.diff(b, "minutes")] *)
Definition diffMinutes (a b : Z) : Z := Z.quot (a - b) 60000.

Definition consoleError (e : string) : M unit :=
  modify (set_host (fun h => with_console (e :: console h) h)).

(** ** The status sink

    [this.__api(changeUserStatusMutation, { request: {}, status })]: the
    request is recorded; it either succeeds, and the remote status becomes
    [status], or it is rejected with an error. *)

Definition callApi (outcome : option string) (status : UserStatus) : M unit :=
  modify (set_host (fun h => with_apiCalls (status :: apiCalls h) h)) >>
  match outcome with
  | None => modify (set_host (with_remoteStatus (Some status)))
  | Some e => throw e
  end.

(** What the host answers during one call of [updateStatus]: the item
    chosen in the quick pick (if it is shown), the clock read by
    [moment(new Date())], the clock read when the status is built, and the
    outcome of the mutation ([None]: success). *)
Record Inputs := mkInputs {
  i_pick : option string;
  i_time : Z;
  i_now : Z;
  i_api : option string
}.

(** ** Timers of the runtime *)

Definition setInterval (workspace : string) (period : Z) : M nat :=
  s <- get ;;
  let id := nextTimer (host s) in
  modify (set_host (fun h =>
    with_timers (timers h ++ [mkTimer id workspace period]) (S id) h)) >>
  ret id.

Definition clearInterval (id : nat) : M unit :=
  modify (set_host (fun h =>
    with_timers (filter (fun t => t_id t <> id) (timers h)) (nextTimer h) h)).

Definition findTimer (id : nat) (ts : list Timer) : option Timer :=
  List.find (fun t => Nat.eqb (t_id t) id) ts.

(** The delay the runtime gives a timer: [setInterval] replaces a delay
    below 1 ms or above [TIMEOUT_MAX] by 1 ms. *)
Definition TIMEOUT_MAX : Z := 2147483647.

Definition effectiveDelay (period : Z) : Z :=
  if (period <? 1) || (TIMEOUT_MAX <? period) then 1 else period.

(** The instants a [Date] can hold: [toISOString] raises a [RangeError] on
    any other. *)
Definition MAX_DATE : Z := 8640000000000000.

Definition validDate (ms : Z) : bool := (- MAX_DATE <=? ms) && (ms <=? MAX_DATE).

(** ** The service class *)

(** [selectEmoji]: the quick pick shows one item per entry of the catalog
    and resolves to the chosen item's name, or to [undefined]. The order in
    which the items are shown does not reach the result. *)
Definition selectEmoji (pick : option string) : M (option string) :=
  s <- get ;;
  match pick with
  | Some n =>
      if existsb (fun e => String.eqb (name e) n) (__emojiCache (svc s))
      then ret (Some n) else ret None
  | None => ret None
  end.

(** The duration text of [updateStatus], from the [else] branch of
    [if (!this.__start)]. *)
Definition diffText (diffN : Z) : string :=
  let diff :=
    "(" +:+ toString diffN +:+ " minute" +:+ (if diffN >? 1 then "s" else "") +:+ ")" in
  if diffN >? 60 then
    let hours := diffN / 60 in
    let minutes := Z.rem diffN 60 in
    "(" +:+ toString hours +:+ " hour" +:+ (if hours >? 1 then "s" else "")
        +:+ " " +:+ toString minutes +:+ " minute"
        +:+ (if minutes >? 1 then "s" else "") +:+ ")"
  else diff.

(** The [message] template of the active status. *)
Definition activeMessage (workspace : string) (lang : option string)
    (diff : string) : string :=
  "Working on " +:+ workspace
    +:+ (if truthy lang then " in " +:+ default "" lang else "")
    +:+ (if (0 <? Z.of_nat (String.length diff)) then " for " +:+ diff else "").

Definition setIdle (i : Inputs) : M unit :=
  s <- get ;;
  let emoji :=
    if truthy (cfg_emojiDefault (host s))
    then default "" (cfg_emojiDefault (host s)) else "zzz" in
  let status := mkStatus (Some (":" +:+ emoji +:+ ":"))
                         (Some (i_now i + 60 * 60 * 1000))
                         (Some "Idle - Away from keyboard") in
  tryCatch (callApi (i_api i) status) (fun err => consoleError err).

(** The opening block of [updateStatus]: the configured emoji, or the one
    the user selects (which is then saved), or ["computer"]. *)
Definition resolveEmoji (i : Inputs) : M string :=
  s0 <- get ;;
  if truthy (cfg_emoji (host s0))
  then ret (default "" (cfg_emoji (host s0)))
  else
    selectedEmoji <- selectEmoji (i_pick i) ;;
    if truthy selectedEmoji
    then modify (set_host (with_cfg_emoji selectedEmoji)) >>
         ret (default "" selectedEmoji)
    else ret "computer".

Definition updateStatus (workspace : string) (i : Inputs) : M (option nat) :=
  emoji <- resolveEmoji i ;;
  let time := i_time i in
  s <- get ;;
  let minutesSinceActivity := diffMinutes time (__lastActivity (svc s)) in
  if (minutesSinceActivity >=? __idleTimeout (svc s)) && negb (__isIdle (svc s))
  then
    modify (set_svc (with_isIdle true)) >>
    setIdle i >>
    ret None
  else if __isIdle (svc s) then ret None
  else
    p <- match __start (svc s) with
         | None =>
             modify (set_svc (with_start (Some time))) >>
             id <- setInterval workspace (__expires (svc s) * 60000) ;;
             ret ("", Some id)
         | Some start => ret (diffText (diffMinutes time start), None)
         end ;;
    let diff : string := fst p in
    let interval : option nat := snd p in
    s' <- get ;;
    let status :=
      mkStatus (Some (":" +:+ emoji +:+ ":"))
               (Some (OFFSET + i_now i + __expires (svc s') * 60000))
               (Some (activeMessage workspace (__currentLanguage (svc s')) diff)) in
    finallyReturn
      (tryCatch (callApi (i_api i) status) (fun err => consoleError err))
      interval.

(** A call whose promise is not awaited: its completion is dropped. *)
Definition notAwaited {A} (m : M A) : M unit :=
  fun s => (Returned tt, snd (m s)).

Definition onActivity (t : Z) (i : Inputs) : M unit :=
  modify (set_svc (with_lastActivity t)) >>
  s <- get ;;
  if __isIdle (svc s) then
    modify (set_svc (with_isIdle false)) >>
    if truthy (workspace_name (host s))
    then notAwaited (updateStatus (default "" (workspace_name (host s))) i)
    else ret tt
  else ret tt.

Definition resetActivity (t : Z) : M unit :=
  modify (set_svc (with_lastActivity t)) >>
  modify (set_svc (with_isIdle false)) >>
  modify (set_svc (with_start None)).

Definition setDefault (outcome : option string) : M unit :=
  s <- get ;;
  if negb (truthy (cfg_default (host s))) then ret tt
  else
    let emoji := cfg_emojiDefault (host s) in
    let status :=
      mkStatus (if truthy emoji then Some (":" +:+ default "" emoji +:+ ":") else None)
               None
               (cfg_default (host s)) in
    tryCatch (callApi outcome status) (fun err => consoleError err).

(** The handler registered on [onDidSaveTextDocument]. *)
Definition onSave (languageId : string) (t : Z) (i : Inputs) : M unit :=
  modify (set_svc (with_currentLanguage (Some languageId))) >>
  onActivity t i.

(** The field initialisers and the assignments of the constructor. *)
Definition newService (interval idleTimeout : Z) (context : bool) (t : Z) : Service :=
  mkService interval None None ∅ [] context t idleTimeout false.

(** ** The command handlers of [extension.ts] *)

(** [githubstatus.activate] *)
Definition activateCmd (t : Z) (i : Inputs) : M unit :=
  s <- get ;;
  if truthy (workspace_name (host s)) then
    resetActivity t >>
    r <- updateStatus (default "" (workspace_name (host s))) i ;;
    modify (set_host (with_interval r)) >>
    modify (set_host (with_isActive true))
  else ret tt.

(** [deactivate()] *)
Definition deactivate (outcome : option string) : M unit :=
  s <- get ;;
  match interval (host s) with
  | Some id => clearInterval id >> modify (set_host (with_interval None))
  | None => ret tt
  end >>
  s' <- get ;;
  if negb (isActive (host s')) then setDefault outcome else ret tt.

(** [githubstatus.deactivate] *)
Definition deactivateCmd (o1 o2 : option string) : M unit :=
  deactivate o1 >>
  setDefault o2 >>
  modify (set_host (with_isActive false)).

(** ** Events *)

Inductive Event :=
| Tick (id : nat) (i : Inputs)
| Activity (t : Z) (i : Inputs)
| Save (languageId : string) (t : Z) (i : Inputs)
| Activate (t : Z) (i : Inputs)
| Deactivate (o1 o2 : option string).

(** A timer that is still registered runs its closure; the promise the
    closure returns is dropped by the runtime. *)
Definition step (e : Event) (s : State) : State :=
  match e with
  | Tick id i =>
      match findTimer id (timers (host s)) with
      | Some t => after (notAwaited (updateStatus (t_workspace t) i) s)
      | None => s
      end
  | Activity t i => after (onActivity t i s)
  | Save l t i => after (onSave l t i s)
  | Activate t i => after (activateCmd t i s)
  | Deactivate o1 o2 => after (deactivateCmd o1 o2 s)
  end.

Definition run (es : list Event) (s : State) : State :=
  fold_left (fun s e => step e s) es s.

(** ** The emoji catalog *)

(** The outcome of [fetch("https://api.github.com/emojis")]: the promise is
    rejected, or it resolves to a response with its [ok] flag and a body;
    [response.json()] is rejected ([None]) or resolves to an object, given
    by its properties in the order [Object.entries] enumerates them. *)
Inductive FetchOutcome :=
| FetchRejected (err : string)
| FetchResponse (ok : bool) (body : option (list (string * string))).

(** What the host answers during one call of [loadEmojis]: whether reading
    the global state throws, the clock read by [getCachedEmojis], the
    outcome of the fetch, whether each of the two writes of [cacheEmojis]
    is rejected, and the clock read for the cache timestamp. *)
Record LoadInputs := mkLoadInputs {
  l_read : option string;
  l_now : Z;
  l_fetch : FetchOutcome;
  l_write1 : option string;
  l_write2 : option string;
  l_writeNow : Z
}.

Definition getCachedEmojis (i : LoadInputs) : M (option (list EmojiCacheItem)) :=
  s <- get ;;
  if negb (__context (svc s)) then ret None
  else
    tryCatch
      (_ <- match l_read i with Some e => throw e | None => ret tt end ;;
       let cachedEmojis := gs_emojiCache (host s) in
       let cacheTimestamp := gs_emojiCacheTimestamp (host s) in
       match cachedEmojis, cacheTimestamp with
       | Some items, Some ts =>
           if ts =? 0 then ret None
           else
             let now := l_now i in
             let cacheAge := now - ts in
             let maxAge := CACHE_EXPIRY_HOURS * 60 * 60 * 1000 in
             if cacheAge >? maxAge then ret None
             else ret (Some items)
       | _, _ => ret None
       end)
      (fun error =>
         consoleError ("Failed to load cached emojis: " +:+ error) >> ret None).

Definition cacheEmojis (i : LoadInputs) (emojis : list EmojiCacheItem) : M unit :=
  s <- get ;;
  if negb (__context (svc s)) then ret tt
  else
    tryCatch
      (_ <- match l_write1 i with
            | Some e => throw e
            | None => modify (set_host (with_gs_emojiCache (Some emojis)))
            end ;;
       match l_write2 i with
       | Some e => throw e
       | None => modify (set_host (with_gs_emojiCacheTimestamp (Some (l_writeNow i))))
       end)
      (fun error => consoleError ("Failed to cache emojis: " +:+ error)).

Definition entryOf (p : string * string) : EmojiCacheItem := mkItem (fst p) (snd p).

(** The object literal of the [catch] block of [loadEmojis]. *)
Definition fallbackEmojis : list (string * string) :=
  [ ("computer", "https://github.githubassets.com/images/icons/emoji/unicode/1f4bb.png?v8");
    ("rocket", "https://github.githubassets.com/images/icons/emoji/unicode/1f680.png?v8");
    ("zap", "https://github.githubassets.com/images/icons/emoji/unicode/26a1.png?v8");
    ("coffee", "https://github.githubassets.com/images/icons/emoji/unicode/2615.png?v8");
    ("fire", "https://github.githubassets.com/images/icons/emoji/unicode/1f525.png?v8");
    ("house", "https://github.githubassets.com/images/icons/emoji/unicode/1f3e0.png?v8") ].

Definition doFetch (i : LoadInputs) : M (bool * option (list (string * string))) :=
  modify (set_host (fun h => with_fetches (S (fetches h)) h)) >>
  match l_fetch i with
  | FetchRejected e => throw e
  | FetchResponse ok body => ret (ok, body)
  end.

(** The part of the [try] block of [loadEmojis] that follows the cache
    check: fetch, convert, cache. *)
Definition fetchEmojis (i : LoadInputs) : M unit :=
  response <- doFetch i ;;
  if fst response then
    match snd response with
    | None => throw "Unexpected token in JSON"
    | Some body =>
        modify (set_svc (with_emojis (list_to_map body))) >>
        modify (set_svc (with_emojiCache (map entryOf body))) >>
        s <- get ;;
        cacheEmojis i (__emojiCache (svc s))
    end
  else ret tt.

(** The [catch] block of [loadEmojis]. *)
Definition useFallback (error : string) : M unit :=
  consoleError ("Failed to load emojis: " +:+ error) >>
  modify (set_svc (with_emojis (list_to_map fallbackEmojis))) >>
  modify (set_svc (with_emojiCache (map entryOf fallbackEmojis))).

Definition loadEmojis (i : LoadInputs) : M unit :=
  tryCatch
    (cachedEmojis <- getCachedEmojis i ;;
     match cachedEmojis with
     | Some (e :: es) =>
         let items := e :: es in
         modify (set_svc (with_emojiCache items)) >>
         modify (set_svc (with_emojis ∅)) >>
         modify (set_svc (fun c =>
           with_emojis (fold_left (fun m x => <[name x := url x]> m) items (__emojis c)) c))
     | _ => fetchEmojis i
     end)
    useFallback.

Definition getAvailableEmojis (s : State) : list EmojiCacheItem :=
  __emojiCache (svc s).

(** ** Descriptions used by the statements

    The effect on the host of one guarded mutation
    [try { await this.__api(...) } catch (err) { console.error(err) }],
    and the two statuses the synchroniser builds. *)

Definition sinkEffect (outcome : option string) (st : UserStatus) (h : Host) : Host :=
  let h1 := with_apiCalls (st :: apiCalls h) h in
  match outcome with
  | None => with_remoteStatus (Some st) h1
  | Some e => with_console (e :: console h1) h1
  end.

Definition idleStatus (emojiDefault : option string) (now : Z) : UserStatus :=
  mkStatus (Some (":" +:+ (if truthy emojiDefault then default "" emojiDefault else "zzz") +:+ ":"))
           (Some (now + 3600000))
           (Some "Idle - Away from keyboard").

Definition activeStatus (emoji : string) (now expires : Z) (workspace : string)
    (lang : option string) (diff : string) : UserStatus :=
  mkStatus (Some (":" +:+ emoji +:+ ":"))
           (Some (OFFSET + now + expires * 60000))
           (Some (activeMessage workspace lang diff)).

(** The test of [updateStatus] that classifies the user as idle. *)
Definition idleReached (i : Inputs) (c : Service) : bool :=
  diffMinutes (i_time i) (__lastActivity c) >=? __idleTimeout c.

(** The inputs of a call, with the outcome of the mutation replaced. *)
Definition withApi (outcome : option string) (i : Inputs) : Inputs :=
  mkInputs (i_pick i) (i_time i) (i_now i) outcome.

(** Events that go through [resetActivity]. *)
Definition isReset (e : Event) : bool :=
  match e with
  | Activate _ _ => true
  | _ => false
  end.

Definition isTick (e : Event) : bool :=
  match e with
  | Tick _ _ => true
  | _ => false
  end.

(** The duration text as the specification words it: ["N minute(s)"] below
    sixty minutes, ["H hour(s) M minute(s)"] from sixty minutes on, with the
    plural mark when the count exceeds one. *)
Definition plural (n : Z) : string := if n >? 1 then "s" else "".

Definition durationSpec (n : Z) : string :=
  if n <? 60
  then toString n +:+ " minute" +:+ plural n
  else toString (n / 60) +:+ " hour" +:+ plural (n / 60) +:+ " "
         +:+ toString (n mod 60) +:+ " minute" +:+ plural (n mod 60).

(** ** Scenario fixtures

    A host with the emoji ["computer"] configured, workspace ["demo"], an
    empty store and no timer; a service built at instant 0 with the default
    configuration (interval 1, idle timeout 15); inputs of a call at
    instant [t] in which nothing is picked and the mutation succeeds. *)

Definition demoHost : Host :=
  mkHost (Some "computer") None None (Some "demo") None None [] None 0 [] [] 0 None false.

Definition demoState : State := mkState (newService 1 15 true 0) demoHost.

Definition quiet (t : Z) : Inputs := mkInputs None t t None.

Definition minutes (n : Z) : Z := n * 60000.

(** Inputs of a load at instant [now] in which the store answers and only
    the fetch may fail; the demo state with an empty record in the store. *)
Definition loadAt (now : Z) (f : FetchOutcome) : LoadInputs :=
  mkLoadInputs None now f None None now.

Definition emptyRecordState : State :=
  set_host (fun h => with_gs_emojiCacheTimestamp (Some 1000)
                       (with_gs_emojiCache (Some []) h)) demoState.

(** A cache miss: [getCachedEmojis] answers [null] or an empty array. *)
Definition isMiss (r : option (list EmojiCacheItem)) : bool :=
  match r with
  | Some (_ :: _) => false
  | _ => true
  end.

(** The demo state after a first load, at instant 1000, that fetched a
    directory of one entry and stored it. *)
Definition demoDirectory : list (string * string) := [("rocket", "u")].

Definition cachedState : State :=
  after (loadEmojis (loadAt 1000 (FetchResponse true (Some demoDirectory))) demoState).

(** The store of [cachedState] seen by a service built without an extension
    context; the same record stamped 0; a load whose store read fails. *)
Definition noContextState : State :=
  mkState (newService 1 15 false 0) (host cachedState).

Definition zeroStampState : State :=
  set_host (with_gs_emojiCacheTimestamp (Some 0)) cachedState.

Definition unreadableAt (now : Z) (f : FetchOutcome) : LoadInputs :=
  mkLoadInputs (Some "EIO") now f None None now.

(** The demo service after the activate command at instant 0, and after a
    tick of the timer created there, sixteen minutes later. *)
Definition demoActive : State := step (Activate 0 (quiet 0)) demoState.

Definition demoIdle : State := step (Tick 0 (quiet (minutes 16))) demoActive.

(** ** Emoji previews

    [getEmojiPreview(name, url)]. A URL is a string of bytes (UTF-8); the
    pattern of the source is made of ASCII characters only, so matching
    bytes is matching characters. The string built from the code points is
    given by its UTF-16 code units. *)

(** The character ["-"]. *)
Definition hyphen : Ascii.ascii := Ascii.ascii_of_N 45.

Definition isHexDigit (c : Ascii.ascii) : bool :=
  let n := Ascii.N_of_ascii c in
  ((48 <=? n) && (n <=? 57) || (97 <=? n) && (n <=? 102) || (65 <=? n) && (n <=? 70))%N.

Definition hexValue (c : Ascii.ascii) : option N :=
  let n := Ascii.N_of_ascii c in
  if ((48 <=? n) && (n <=? 57))%N then Some (n - 48)%N
  else if ((97 <=? n) && (n <=? 102))%N then Some (n - 87)%N
  else if ((65 <=? n) && (n <=? 70))%N then Some (n - 55)%N
  else None.

(** The character class [[0-9a-fA-F-]]. *)
Definition isClassChar (c : Ascii.ascii) : bool :=
  isHexDigit c || Ascii.eqb c hyphen.

Fixpoint stripPrefix (p s : string) : option string :=
  match p, s with
  | EmptyString, _ => Some s
  | String a p', String b s' => if Ascii.eqb a b then stripPrefix p' s' else None
  | String _ _, EmptyString => None
  end.

(** The longest run of class characters at the head of a string, and what
    follows it. *)
Fixpoint takeClass (s : string) : string * string :=
  match s with
  | String c s' =>
      if isClassChar c
      then (String c (fst (takeClass s')), snd (takeClass s'))
      else (EmptyString, s)
  | EmptyString => (EmptyString, EmptyString)
  end.

(** [/\/unicode\/([0-9a-fA-F-]+)\.png/] tried at the head of [s]. The dot is
    not in the class, so of all the runs the greedy [+] may try only the
    longest one can be followed by [".png"]. *)
Definition matchHere (s : string) : option string :=
  match stripPrefix "/unicode/" s with
  | Some s1 =>
      if String.eqb (fst (takeClass s1)) "" then None
      else match stripPrefix ".png" (snd (takeClass s1)) with
           | Some _ => Some (fst (takeClass s1))
           | None => None
           end
  | None => None
  end.

(** [url.match(...)]: the capture of the leftmost match. *)
Fixpoint matchUnicode (url : string) : option string :=
  match matchHere url with
  | Some cap => Some cap
  | None =>
      match url with
      | String _ rest => matchUnicode rest
      | EmptyString => None
      end
  end.

(** [s.split(sep)] for a separator of one character. *)
Fixpoint split (sep : Ascii.ascii) (s : string) : list string :=
  match s with
  | EmptyString => [EmptyString]
  | String c s' =>
      if Ascii.eqb c sep then EmptyString :: split sep s'
      else match split sep s' with
           | h :: t => String c h :: t
           | [] => [String c EmptyString]
           end
  end.

(** [parseInt(code, 16)] on a string that starts with neither white space,
    a sign nor ["0x"], as the segments of a capture do: the value of the
    longest prefix of hexadecimal digits, [None] (NaN) when it is empty. *)
Fixpoint hexPrefix (s : string) (acc : option N) : option N :=
  match s with
  | String c s' =>
      match hexValue c with
      | Some d => hexPrefix s' (Some (16 * default 0 acc + d)%N)
      | None => acc
      end
  | EmptyString => acc
  end.

Definition parseInt16 (code : string) : option N := hexPrefix code None.

(** [String.fromCodePoint(n)]: one code unit up to [0xFFFF], a surrogate
    pair up to [0x10FFFF], a [RangeError] ([None]) above. *)
Definition fromCodePoint (n : N) : option (list N) :=
  if (n <=? 65535)%N then Some [n]
  else if (n <=? 1114111)%N
       then Some [(55296 + (n - 65536) / 1024)%N; (56320 + (n - 65536) mod 1024)%N]
       else None.

(** [codes.map(code => String.fromCodePoint(parseInt(code, 16))).join('')];
    [None] when one of the calls throws. *)
Fixpoint joinCodePoints (codes : list string) : option (list N) :=
  match codes with
  | [] => Some []
  | code :: rest =>
      match parseInt16 code with
      | Some n =>
          match fromCodePoint n, joinCodePoints rest with
          | Some u, Some r => Some (u ++ r)
          | _, _ => None
          end
      | None => None
      end
  end.

(** The names that are own keys of [emojiMap], and the names the lookup
    [emojiMap[name]] finds on [Object.prototype]. *)
Definition emojiMapKeys : list string :=
  [ "computer"; "rocket"; "zap"; "coffee"; "fire"; "house"; "zzz"; "brain";
    "eyes"; "hammer"; "wrench"; "bulb"; "smile"; "heart"; "thumbsup";
    "thumbsdown"; "clap"; "tada"; "thinking_face"; "joy" ].

Definition objectPrototypeKeys : list string :=
  [ "constructor"; "hasOwnProperty"; "isPrototypeOf"; "propertyIsEnumerable";
    "toLocaleString"; "toString"; "valueOf"; "__proto__"; "__defineGetter__";
    "__defineSetter__"; "__lookupGetter__"; "__lookupSetter__" ].

Definition includes (x : string) (l : list string) : bool :=
  existsb (String.eqb x) l.

(** What [getEmojiPreview] returns: the string built from the URL; the
    glyph stored in [emojiMap] under the name; a member of
    [Object.prototype]; or the shortcode. *)
Inductive Preview :=
| Glyph (units : list N)
| MapGlyph (key : string)
| Inherited (key : string)
| Shortcode (text : string).

(** [emojiMap[name] || `:${name}:`] *)
Definition fallbackPreview (name : string) : Preview :=
  if includes name emojiMapKeys then MapGlyph name
  else if includes name objectPrototypeKeys then Inherited name
  else Shortcode (":" +:+ name +:+ ":").

Definition codePointsOf (capture : string) : list string :=
  filter (fun code => code <> "200d") (split hyphen capture).

Definition getEmojiPreview (name url : string) : M Preview :=
  match matchUnicode url with
  | Some capture =>
      r <- tryCatch
             (match joinCodePoints (codePointsOf capture) with
              | Some emoji => ret (Some (Glyph emoji))
              | None => throw "RangeError: Invalid code point"
              end)
             (fun e =>
                consoleError ("Failed to parse Unicode from URL for " +:+ name +:+ ": " +:+ e) >>
                ret None) ;;
      match r with
      | Some p => ret p
      | None => ret (fallbackPreview name)
      end
  | None => ret (fallbackPreview name)
  end.

(** ** The order of the quick pick

    The items of [selectEmoji] are sorted by their [emoji] field, the name
    of the entry. [localeCompare] is a parameter: a consistent comparator,
    as the language requires of it. With a consistent comparator
    [Array.prototype.sort] returns the stable sorted arrangement, computed
    here by insertion. *)

Definition popularEmojis : list string :=
  [ "computer"; "rocket"; "zap"; "fire"; "coffee"; "brain"; "eyes"; "hammer";
    "wrench"; "bulb" ].

(** [l.indexOf(x)] *)
Fixpoint indexOf (x : string) (l : list string) : Z :=
  match l with
  | [] => -1
  | y :: l' =>
      if String.eqb y x then 0
      else if indexOf x l' =? -1 then -1 else 1 + indexOf x l'
  end.

Section QuickPick.

Variable localeCompare : string -> string -> Z.

(** The comparator passed to [sort]. *)
Definition compareItems (a b : EmojiCacheItem) : Z :=
  let aIndex := indexOf (name a) popularEmojis in
  let bIndex := indexOf (name b) popularEmojis in
  if negb (aIndex =? -1) && negb (bIndex =? -1) then aIndex - bIndex
  else if negb (aIndex =? -1) then -1
  else if negb (bIndex =? -1) then 1
  else localeCompare (name a) (name b).

Fixpoint insertItem (x : EmojiCacheItem) (l : list EmojiCacheItem) : list EmojiCacheItem :=
  match l with
  | [] => [x]
  | y :: l' => if compareItems x y <=? 0 then x :: y :: l' else y :: insertItem x l'
  end.

Definition sortItems (l : list EmojiCacheItem) : list EmojiCacheItem :=
  foldr insertItem [] l.

(** The items shown by [selectEmoji], in order. *)
Definition quickPickItems (s : State) : list EmojiCacheItem :=
  sortItems (getAvailableEmojis s).

End QuickPick.

Definition isPopular (e : EmojiCacheItem) : bool :=
  negb (indexOf (name e) popularEmojis =? -1).

(** ** The blacklist

    The list computed by the command [githubstatus.toggleBlacklist], and
    what its branch that adds the workspace does to the synchroniser:
    [deactivate()] is called without [await], then [isActive] is cleared. *)

Definition toggleBlacklist (blacklist : list string) (workspacePath : string) : list string :=
  if includes workspacePath blacklist
  then filter (fun path => path <> workspacePath) blacklist
  else blacklist ++ [workspacePath].

Definition blacklistWorkspace (outcome : option string) : M unit :=
  notAwaited (deactivate outcome) >>
  modify (set_host (with_isActive false)).

(** Events that are commands of the extension. *)
Definition isCommand (e : Event) : bool :=
  match e with
  | Activate _ _ | Deactivate _ _ => true
  | _ => false
  end.

(** The status [setDefault] builds. *)
Definition defaultStatus (h : Host) : UserStatus :=
  mkStatus (if truthy (cfg_emojiDefault h)
            then Some (":" +:+ default "" (cfg_emojiDefault h) +:+ ":")
            else None)
           None (cfg_default h).

(** A service with the built-in catalog and a host with no emoji
    configured. *)
Definition pickState : State :=
  mkState (with_emojiCache (map entryOf fallbackEmojis) (newService 1 15 true 0))
          (with_cfg_emoji None demoHost).

(** The state [resetActivity] leaves. *)
Definition afterReset (t : Z) (s : State) : State :=
  set_svc (with_start None) (set_svc (with_isIdle false) (set_svc (with_lastActivity t) s)).

(** The state [deactivate()] leaves before it considers the default
    status: the timer recorded in [interval] is cleared. *)
Definition cleared (s : State) : State :=
  match interval (host s) with
  | Some id =>
      set_host (with_interval None)
        (set_host (fun h => with_timers (filter (fun t => t_id t <> id) (timers h))
                                        (nextTimer h) h) s)
  | None => s
  end.

(** The effect of [setDefault]. *)
Definition sentDefault (o : option string) (s : State) : State :=
  if truthy (cfg_default (host s))
  then set_host (sinkEffect o (defaultStatus (host s))) s
  else s.

(** Events of a saved document. *)
Definition isSave (e : Event) : bool :=
  match e with
  | Save _ _ _ => true
  | _ => false
  end.

(** The dictionary [__emojis] and the catalog [__emojiCache] hold the same
    name-url pairs. *)
Definition agrees (c : Service) : Prop :=
  forall n u, __emojis c !! n = Some u <-> mkItem n u ∈ __emojiCache c.

(** The service a load leaves, from the answer of the cache check and the
    outcome of the fetch. *)
Definition loadedService (r : option (list EmojiCacheItem)) (f : FetchOutcome)
    (c : Service) : Service :=
  match r with
  | Some (e :: es) =>
      with_emojis (fold_left (fun m x => <[name x := url x]> m) (e :: es) ∅)
                  (with_emojiCache (e :: es) c)
  | _ =>
      match f with
      | FetchRejected _ | FetchResponse true None =>
          with_emojiCache (map entryOf fallbackEmojis)
                          (with_emojis (list_to_map fallbackEmojis) c)
      | FetchResponse true (Some body) =>
          with_emojiCache (map entryOf body) (with_emojis (list_to_map body) c)
      | FetchResponse false _ => c
      end
  end.

(** Strings whose characters all satisfy a test. *)
Fixpoint allChars (p : Ascii.ascii -> bool) (s : string) : bool :=
  match s with
  | EmptyString => true
  | String c s' => p c && allChars p s'
  end.

(** The directory of the emoji images, as in the URLs of the fallback
    catalog. *)
Definition githubAssets : string :=
  "https://github.githubassets.com/images/icons/emoji/unicode/".

(** A segment [String.fromCodePoint(parseInt(code, 16))] accepts. *)
Definition validCode (code : string) : bool :=
  match parseInt16 code with
  | Some n => (n <=? 1114111)%N
  | None => false
  end.

(** Whether [p] occurs in [s]. *)
Fixpoint occursIn (p s : string) : bool :=
  match stripPrefix p s with
  | Some _ => true
  | None =>
      match s with
      | String _ s' => occursIn p s'
      | EmptyString => false
      end
  end.

(** The rank of an entry in the list of popular names, -1 when it is not
    in it; and the relation the sort establishes between an item and the
    items after it: whatever comes before a popular item is popular, of
    the same or a better rank. *)
Definition priority (e : EmojiCacheItem) : Z := indexOf (name e) popularEmojis.

Definition popularOrder (a b : EmojiCacheItem) : Prop :=
  isPopular b = true -> isPopular a = true /\ priority a <= priority b.

(** A catalog that has the ten popular names, in reverse, between two
    other entries; a service holding it; and a comparator used in
    examples, which orders names by length. *)
Definition pickerCatalog : list EmojiCacheItem :=
  map (fun n => mkItem n ("https://example.test/" +:+ n +:+ ".png"))
      ("zebra" :: rev popularEmojis ++ ["ant"]).

Definition pickerState : State :=
  mkState (with_emojiCache pickerCatalog (newService 1 15 true 0)) demoHost.

Definition byLength (a b : string) : Z :=
  Z.of_nat (String.length a) - Z.of_nat (String.length b).

(** ** Basic facts *)

Lemma with_cfg_emoji_same (h : Host) : with_cfg_emoji (cfg_emoji h) h = h.
Proof. by destruct h. Qed.

Lemma set_host_same (s : State) :
  set_host (with_cfg_emoji (cfg_emoji (host s))) s = s.
Proof. destruct s as [c h]; unfold set_host; cbn. by rewrite with_cfg_emoji_same. Qed.

(** The opening block always returns, and touches nothing but the
    configured emoji. *)
Lemma resolveEmoji_spec (i : Inputs) (s : State) :
  exists em c, resolveEmoji i s = (Returned em, set_host (with_cfg_emoji c) s).
Proof.
  unfold resolveEmoji, selectEmoji, bind, get, ret, modify. cbn.
  destruct (truthy (cfg_emoji (host s))) eqn:Hc.
  - eexists _, (cfg_emoji (host s)). by rewrite set_host_same.
  - destruct (i_pick i) as [n|]; cbn.
    + destruct (existsb _ _); cbn.
      * destruct (negb (String.eqb n "")); cbn.
        -- by eexists _, _.
        -- eexists _, (cfg_emoji (host s)). by rewrite set_host_same.
      * eexists _, (cfg_emoji (host s)). by rewrite set_host_same.
    + eexists _, (cfg_emoji (host s)). by rewrite set_host_same.
Qed.

(** A guarded mutation returns whatever the sink answers. *)
Lemma callApi_guarded (o : option string) (st : UserStatus) (s : State) :
  tryCatch (callApi o st) (fun err => consoleError err) s
  = (Returned tt, set_host (sinkEffect o st) s).
Proof.
  unfold callApi, consoleError, sinkEffect, tryCatch, bind, modify, throw.
  destruct o; reflexivity.
Qed.

Lemma setIdle_spec (i : Inputs) (s : State) :
  setIdle i s
  = (Returned tt,
     set_host (sinkEffect (i_api i) (idleStatus (cfg_emojiDefault (host s)) (i_now i))) s).
Proof.
  unfold setIdle. unfold bind at 1. unfold get.
  rewrite callApi_guarded. reflexivity.
Qed.

(** *** The four paths of [updateStatus]

    Each path is stated for the emoji [em] and the configuration value [c]
    that the opening block leaves behind. *)

Section Paths.

Variables (ws : string) (i : Inputs) (s : State).
Variables (em : string) (c : option string).
Hypothesis Hr : resolveEmoji i s = (Returned em, set_host (with_cfg_emoji c) s).

Lemma updateStatus_goes_idle :
  idleReached i (svc s) = true -> __isIdle (svc s) = false ->
  updateStatus ws i s
  = (Returned None,
     mkState (with_isIdle true (svc s))
             (sinkEffect (i_api i) (idleStatus (cfg_emojiDefault (host s)) (i_now i))
                         (with_cfg_emoji c (host s)))).
Proof.
  intros HG HI. unfold updateStatus. unfold bind at 1. rewrite Hr.
  unfold bind at 1, get. cbn [svc set_host].
  unfold idleReached in HG. rewrite HG, HI. cbn [andb negb].
  unfold bind at 1, modify. unfold bind at 1. rewrite setIdle_spec. reflexivity.
Qed.

Lemma updateStatus_while_idle :
  __isIdle (svc s) = true ->
  updateStatus ws i s = (Returned None, set_host (with_cfg_emoji c) s).
Proof.
  intros HI. unfold updateStatus. unfold bind at 1. rewrite Hr.
  unfold bind at 1, get. cbn [svc set_host].
  rewrite HI. cbn [negb]. rewrite andb_false_r. reflexivity.
Qed.

Lemma updateStatus_first_push :
  idleReached i (svc s) = false -> __isIdle (svc s) = false ->
  __start (svc s) = None ->
  updateStatus ws i s
  = (Returned (Some (nextTimer (host s))),
     mkState (with_start (Some (i_time i)) (svc s))
             (sinkEffect (i_api i)
                (activeStatus em (i_now i) (__expires (svc s)) ws
                              (__currentLanguage (svc s)) "")
                (with_timers
                   (timers (host s)
                      ++ [mkTimer (nextTimer (host s)) ws (__expires (svc s) * 60000)])
                   (S (nextTimer (host s)))
                   (with_cfg_emoji c (host s))))).
Proof.
  intros HG HI HS. unfold updateStatus. unfold bind at 1. rewrite Hr.
  unfold bind at 1, get. cbn [svc set_host].
  unfold idleReached in HG. rewrite HG, HI, HS. cbn [andb negb].
  unfold setInterval, bind, ret, get, modify, finallyReturn.
  cbn [svc host set_svc set_host fst snd].
  rewrite callApi_guarded. reflexivity.
Qed.

Lemma updateStatus_later_push (start : Z) :
  idleReached i (svc s) = false -> __isIdle (svc s) = false ->
  __start (svc s) = Some start ->
  updateStatus ws i s
  = (Returned None,
     mkState (svc s)
             (sinkEffect (i_api i)
                (activeStatus em (i_now i) (__expires (svc s)) ws
                              (__currentLanguage (svc s))
                              (diffText (diffMinutes (i_time i) start)))
                (with_cfg_emoji c (host s)))).
Proof.
  intros HG HI HS. unfold updateStatus. unfold bind at 1. rewrite Hr.
  unfold bind at 1, get. cbn [svc set_host].
  unfold idleReached in HG. rewrite HG, HI, HS. cbn [andb negb].
  unfold bind, ret, get, modify, finallyReturn.
  cbn [svc host set_svc set_host fst snd].
  rewrite callApi_guarded. reflexivity.
Qed.

End Paths.

(** Case analysis of one call along its four paths. *)
Ltac updateStatus_paths ws i s :=
  let HI := fresh "HI" in
  let HG := fresh "HG" in
  let HS := fresh "HS" in
  let Hu := fresh "Hu" in
  let Hr := fresh "Hr" in
  let em := fresh "em" in
  let c := fresh "c" in
  destruct (resolveEmoji_spec i s) as (em & c & Hr);
  destruct (__isIdle (svc s)) eqn:HI;
  [ pose proof (updateStatus_while_idle ws i s em c Hr HI) as Hu
  | destruct (idleReached i (svc s)) eqn:HG;
    [ pose proof (updateStatus_goes_idle ws i s em c Hr HG HI) as Hu
    | destruct (__start (svc s)) as [?start|] eqn:HS;
      [ pose proof (updateStatus_later_push ws i s em c Hr _ HG HI HS) as Hu
      | pose proof (updateStatus_first_push ws i s em c Hr HG HI HS) as Hu ] ] ];
  unfold after, result; rewrite Hu; cbn [fst snd svc host].

(** *** Whole minutes and milliseconds *)

Lemma diffMinutes_le_iff (a b T : Z) :
  1 <= T -> (T <= diffMinutes a b <-> T * 60000 <= a - b).
Proof.
  intros HT. unfold diffMinutes.
  destruct (Z_le_gt_dec 0 (a - b)) as [Hpos|Hneg].
  - rewrite Z.quot_div_nonneg by lia.
    split; intros H.
    + pose proof (Z.mul_div_le (a - b) 60000 ltac:(lia)). nia.
    + apply Z.div_le_lower_bound; lia.
  - assert (Z.quot (a - b) 60000 <= 0).
    { apply Z.quot_le_upper_bound; lia. }
    lia.
Qed.

Lemma diffMinutes_mono (a a' b : Z) :
  a <= a' -> diffMinutes a b <= diffMinutes a' b.
Proof. intros H. unfold diffMinutes. apply Z.quot_le_mono; lia. Qed.

(** C4. At a push made while [isIdle] is false, the user is classified as
    idle exactly when the whole minutes since the last activity reach the
    threshold; the boundary (gap equal to the threshold) is idle; and for a
    threshold of at least one minute this is the same as the gap in
    milliseconds reaching the threshold. *)
Theorem idle_classification_iff (ws : string) (i : Inputs) (s : State) :
  __isIdle (svc s) = false ->
  (__isIdle (svc (after (updateStatus ws i s))) = true
     <-> __idleTimeout (svc s) <= diffMinutes (i_time i) (__lastActivity (svc s)))
  /\ (diffMinutes (i_time i) (__lastActivity (svc s)) = __idleTimeout (svc s) ->
      __isIdle (svc (after (updateStatus ws i s))) = true)
  /\ (1 <= __idleTimeout (svc s) ->
      (__isIdle (svc (after (updateStatus ws i s))) = true
         <-> __idleTimeout (svc s) * 60000 <= i_time i - __lastActivity (svc s))).
Proof.
  intros Hidle.
  assert (Hmain : __isIdle (svc (after (updateStatus ws i s))) = true
     <-> __idleTimeout (svc s) <= diffMinutes (i_time i) (__lastActivity (svc s))).
  { updateStatus_paths ws i s; try discriminate.
    - cbn. unfold idleReached in HG. split; [intros _; lia | done].
    - rewrite HI. unfold idleReached in HG. split; [done | lia].
    - cbn. rewrite HI. unfold idleReached in HG. split; [done | lia]. }
  split; [exact Hmain|]. split.
  - intros Heq. apply Hmain. lia.
  - intros HT. rewrite Hmain. by apply diffMinutes_le_iff.
Qed.

Lemma idle_classification_iff_witness :
  __isIdle (svc demoState) = false
  /\ __isIdle (svc (after (updateStatus "demo" (quiet (minutes 15)) demoState))) = true.
Proof.
  split; [reflexivity|].
  apply (proj1 (proj2
    (idle_classification_iff "demo" (quiet (minutes 15)) demoState eq_refl))).
  reflexivity.
Defined.

(** *** The guarded mutations *)

Lemma sinkEffect_fields (o : option string) (st : UserStatus) (h : Host) :
  apiCalls (sinkEffect o st h) = st :: apiCalls h
  /\ timers (sinkEffect o st h) = timers h
  /\ nextTimer (sinkEffect o st h) = nextTimer h
  /\ cfg_emoji (sinkEffect o st h) = cfg_emoji h.
Proof. unfold sinkEffect. by destruct o. Qed.

Lemma sinkEffect_failure (err : string) (st : UserStatus) (h : Host) :
  remoteStatus (sinkEffect (Some err) st h) = remoteStatus h
  /\ console (sinkEffect (Some err) st h) = err :: console h.
Proof. done. Qed.

Lemma setDefault_spec (o : option string) (s : State) :
  setDefault o s
  = (Returned tt,
     if truthy (cfg_default (host s))
     then set_host
            (sinkEffect o
               (mkStatus (if truthy (cfg_emojiDefault (host s))
                          then Some (":" +:+ default "" (cfg_emojiDefault (host s)) +:+ ":")
                          else None)
                         None (cfg_default (host s)))) s
     else s).
Proof.
  unfold setDefault. unfold bind at 1, get.
  destruct (truthy (cfg_default (host s))); cbn [negb]; [|done].
  by rewrite callApi_guarded.
Qed.

(** The deactivate command leaves the service alone. *)
Lemma deactivateCmd_svc (o1 o2 : option string) (s : State) :
  svc (after (deactivateCmd o1 o2 s)) = svc s.
Proof.
  unfold deactivateCmd, deactivate, after.
  unfold bind at 1. unfold bind at 1. unfold bind at 1, get.
  assert (exists s1,
    match interval (host s) with
    | Some id => clearInterval id >> modify (set_host (with_interval None))
    | None => ret tt
    end s = (Returned tt, s1) /\ svc s1 = svc s) as (s1 & -> & H1).
  { destruct (interval (host s)); by eexists. }
  unfold bind at 1, get.
  assert (exists s2,
    (if negb (isActive (host s1)) then setDefault o1 else ret tt) s1
    = (Returned tt, s2) /\ svc s2 = svc s1) as (s2 & -> & H2).
  { destruct (isActive (host s1)); cbn [negb]; [by eexists|].
    rewrite setDefault_spec. eexists; split; [done|].
    by destruct (truthy (cfg_default (host s1))). }
  unfold bind at 1. rewrite setDefault_spec. cbn [snd].
  rewrite <- H1, <- H2. by destruct (truthy (cfg_default (host s2))).
Qed.

(** *** What a call leaves untouched *)

Lemma updateStatus_preserves_start (ws : string) (i : Inputs) (s : State) (t0 : Z) :
  __start (svc s) = Some t0 ->
  __start (svc (after (updateStatus ws i s))) = Some t0.
Proof.
  intros H0. updateStatus_paths ws i s; cbn; congruence.
Qed.

Lemma onActivity_preserves_start (t : Z) (i : Inputs) (s : State) (t0 : Z) :
  __start (svc s) = Some t0 ->
  __start (svc (after (onActivity t i s))) = Some t0.
Proof.
  intros H0. unfold onActivity, after.
  unfold bind at 1, modify. unfold bind at 1, get. cbn [svc set_svc with_lastActivity __isIdle].
  destruct (__isIdle (svc s)); [|by cbn].
  unfold bind at 1. cbn [set_svc svc host].
  destruct (truthy (workspace_name (host s))); [|by cbn].
  unfold notAwaited. cbn [snd].
  apply (updateStatus_preserves_start _ _ _ t0). by cbn.
Qed.

Lemma step_preserves_start (e : Event) (s : State) (t0 : Z) :
  isReset e = false ->
  __start (svc s) = Some t0 ->
  __start (svc (step e s)) = Some t0.
Proof.
  intros He H0. destruct e as [id i|t i|l t i|t i|o1 o2]; try discriminate He; cbn [step].
  - destruct (findTimer id (timers (host s))) as [tm|]; [|done].
    unfold notAwaited, after. cbn [snd].
    by apply (updateStatus_preserves_start _ _ _ t0).
  - by apply onActivity_preserves_start.
  - unfold onSave, after. unfold bind at 1, modify.
    apply (onActivity_preserves_start _ _ _ t0). by cbn.
  - by rewrite deactivateCmd_svc.
Qed.

Lemma run_preserves_start (es : list Event) (s : State) (t0 : Z) :
  forallb (fun e => negb (isReset e)) es = true ->
  __start (svc s) = Some t0 ->
  __start (svc (run es s)) = Some t0.
Proof.
  revert s. induction es as [|e es IH]; intros s Hes H0; [done|].
  cbn in Hes. apply andb_prop in Hes as [He Hes].
  cbn [run fold_left]. apply IH; [done|].
  apply step_preserves_start; [|done]. by destruct (isReset e).
Qed.

(** C5. Once [__start] is set, no push and no activity event changes it;
    only the reset of the activate command does. With a clock that does not
    go back, the elapsed minutes computed at two consecutive pushes do not
    decrease, and in an active run the two messages report exactly these
    values. *)
Theorem active_run_keeps_start (ws : string) (i1 i2 : Inputs) (s : State) (t0 : Z) :
  __start (svc s) = Some t0 ->
  i_time i1 <= i_time i2 ->
  __start (svc (after (updateStatus ws i1 s))) = Some t0
  /\ __start (svc (after (updateStatus ws i2 (after (updateStatus ws i1 s))))) = Some t0
  /\ diffMinutes (i_time i1) t0 <= diffMinutes (i_time i2) t0
  /\ (__isIdle (svc s) = false ->
      idleReached i1 (svc s) = false -> idleReached i2 (svc s) = false ->
      map message
          (take 2 (apiCalls (host (after (updateStatus ws i2 (after (updateStatus ws i1 s)))))))
      = [ Some (activeMessage ws (__currentLanguage (svc s))
                              (diffText (diffMinutes (i_time i2) t0)));
          Some (activeMessage ws (__currentLanguage (svc s))
                              (diffText (diffMinutes (i_time i1) t0))) ])
  /\ (forall es, forallb (fun e => negb (isReset e)) es = true ->
                 __start (svc (run es s)) = Some t0).
Proof.
  intros H0 Hclock.
  split; [by apply updateStatus_preserves_start|].
  split; [by do 2 apply updateStatus_preserves_start|].
  split; [by apply diffMinutes_mono|].
  split; [|intros es Hes; by apply run_preserves_start].
  intros HI HG1 HG2.
  destruct (resolveEmoji_spec i1 s) as (em1 & c1 & Hr1).
  pose proof (updateStatus_later_push ws i1 s em1 c1 Hr1 t0 HG1 HI H0) as Hu1.
  unfold after at 2. rewrite Hu1. cbn [snd].
  set (s1 := mkState _ _).
  destruct (resolveEmoji_spec i2 s1) as (em2 & c2 & Hr2).
  pose proof (updateStatus_later_push ws i2 s1 em2 c2 Hr2 t0 HG2 HI H0) as Hu2.
  unfold after. rewrite Hu2. cbn [snd host].
  unfold sinkEffect. subst s1. cbn [svc host].
  destruct (i_api i1), (i_api i2); reflexivity.
Qed.

Lemma active_run_keeps_start_witness :
  __start (svc (step (Activate 0 (quiet 0)) demoState)) = Some 0
  /\ i_time (quiet (minutes 1)) <= i_time (quiet (minutes 2))
  /\ __start (svc (after (updateStatus "demo" (quiet (minutes 2))
                    (after (updateStatus "demo" (quiet (minutes 1))
                              (step (Activate 0 (quiet 0)) demoState)))))) = Some 0.
Proof.
  split; [reflexivity|]. split; [vm_compute; discriminate|].
  apply (proj1 (proj2
    (active_run_keeps_start "demo" (quiet (minutes 1)) (quiet (minutes 2))
       (step (Activate 0 (quiet 0)) demoState) 0 eq_refl
       ltac:(vm_compute; discriminate)))).
Defined.

(** *** Ticks while idle *)

Lemma step_tick_while_idle (e : Event) (s : State) :
  isTick e = true -> __isIdle (svc s) = true ->
  exists c, step e s = set_host (with_cfg_emoji c) s.
Proof.
  intros He HI. destruct e as [id i|t i|l t i|t i|o1 o2]; try discriminate He; cbn [step].
  destruct (findTimer id (timers (host s))) as [tm|].
  - destruct (resolveEmoji_spec i s) as (em & c & Hr).
    exists c. unfold notAwaited, after. cbn [snd].
    by rewrite (updateStatus_while_idle (t_workspace tm) i s em c Hr HI).
  - exists (cfg_emoji (host s)). by rewrite set_host_same.
Qed.

Lemma run_ticks_while_idle (es : list Event) (s : State) :
  forallb isTick es = true -> __isIdle (svc s) = true ->
  exists c, run es s = set_host (with_cfg_emoji c) s.
Proof.
  revert s. induction es as [|e es IH]; intros s Hes HI.
  - exists (cfg_emoji (host s)). by rewrite set_host_same.
  - cbn in Hes. apply andb_prop in Hes as [He Hes].
    destruct (step_tick_while_idle e s He HI) as (c1 & H1).
    cbn [run fold_left]. rewrite H1.
    destruct (IH (set_host (with_cfg_emoji c1) s) Hes HI) as (c2 & H2).
    exists c2. unfold run in H2. rewrite H2. reflexivity.
Qed.

(** C10. A call of [updateStatus] that finds [isIdle] true returns [null],
    sends nothing to the sink and leaves every field of the service, the
    remote status and the timers as they were; so does any sequence of
    timer ticks that starts in such a state. *)
Theorem idle_tick_is_noop (ws : string) (i : Inputs) (s : State) :
  __isIdle (svc s) = true ->
  (result (updateStatus ws i s) = Returned None
   /\ svc (after (updateStatus ws i s)) = svc s
   /\ apiCalls (host (after (updateStatus ws i s))) = apiCalls (host s)
   /\ remoteStatus (host (after (updateStatus ws i s))) = remoteStatus (host s)
   /\ timers (host (after (updateStatus ws i s))) = timers (host s))
  /\ (forall es, forallb isTick es = true ->
        svc (run es s) = svc s
        /\ apiCalls (host (run es s)) = apiCalls (host s)
        /\ remoteStatus (host (run es s)) = remoteStatus (host s)
        /\ timers (host (run es s)) = timers (host s)).
Proof.
  intros HI. split.
  - destruct (resolveEmoji_spec i s) as (em & c & Hr).
    unfold result, after.
    rewrite (updateStatus_while_idle ws i s em c Hr HI). by cbn.
  - intros es Hes. destruct (run_ticks_while_idle es s Hes HI) as (c & Hrun).
    rewrite Hrun. by cbn.
Qed.

Lemma idle_tick_is_noop_witness :
  __isIdle (svc demoIdle) = true
  /\ apiCalls (host (after (updateStatus "demo" (quiet (minutes 17)) demoIdle)))
     = apiCalls (host demoIdle).
Proof.
  split; [reflexivity|].
  apply (proj1 (idle_tick_is_noop "demo" (quiet (minutes 17)) demoIdle eq_refl)).
Defined.

(** C2, as stated, fails: the push that goes idle leaves the interval timer
    registered. In the demo run the timer created by the first push is still
    live after the idle push of minute 16, so the runtime keeps firing it;
    an activity event at minute 20 creates no timer, and it is that same
    timer whose tick sends the status of minute 21. *)
Lemma idle_transition_timer_still_live :
  __isIdle (svc demoActive) = false
  /\ __isIdle (svc demoIdle) = true
  /\ timers (host demoIdle) = [mkTimer 0 "demo" 60000]
  /\ findTimer 0 (timers (host demoIdle)) = Some (mkTimer 0 "demo" 60000)
  /\ timers (host demoIdle) <> []
  /\ timers (host (run [Activity (minutes 20) (quiet (minutes 20))] demoIdle))
     = [mkTimer 0 "demo" 60000]
  /\ message <$> head (apiCalls (host
        (run [Activity (minutes 20) (quiet (minutes 20)); Tick 0 (quiet (minutes 21))]
             demoIdle)))
     = Some (Some "Working on demo for (21 minutes)").
Proof. repeat split; try reflexivity. discriminate. Qed.

(** C2, amended. A push that finds the idle threshold reached while
    [isIdle] is false returns [null], sets [isIdle], and sends one status
    with the message "Idle - Away from keyboard", the emoji [emojiDefault]
    (":zzz:" when none is configured) and an expiry one hour after the
    clock reading. It creates no timer and cancels none: the timers are the
    ones that were live before. The ticks that follow send nothing and
    change no timer. *)
Theorem idle_transition_push (ws : string) (i : Inputs) (s : State) :
  idleReached i (svc s) = true ->
  __isIdle (svc s) = false ->
  result (updateStatus ws i s) = Returned None
  /\ __isIdle (svc (after (updateStatus ws i s))) = true
  /\ apiCalls (host (after (updateStatus ws i s)))
     = mkStatus (Some (":" +:+ (if truthy (cfg_emojiDefault (host s))
                                then default "" (cfg_emojiDefault (host s))
                                else "zzz") +:+ ":"))
                (Some (i_now i + 3600000))
                (Some "Idle - Away from keyboard")
       :: apiCalls (host s)
  /\ (truthy (cfg_emojiDefault (host s)) = false ->
      emoji <$> head (apiCalls (host (after (updateStatus ws i s))))
      = Some (Some ":zzz:"))
  /\ timers (host (after (updateStatus ws i s))) = timers (host s)
  /\ nextTimer (host (after (updateStatus ws i s))) = nextTimer (host s)
  /\ (forall es, forallb isTick es = true ->
        apiCalls (host (run es (after (updateStatus ws i s))))
        = apiCalls (host (after (updateStatus ws i s)))
        /\ timers (host (run es (after (updateStatus ws i s)))) = timers (host s)).
Proof.
  intros HG HI.
  destruct (resolveEmoji_spec i s) as (em & c & Hr).
  pose proof (updateStatus_goes_idle ws i s em c Hr HG HI) as Hu.
  unfold result, after. rewrite Hu. cbn [fst snd].
  set (s' := mkState _ _).
  assert (Hcalls : apiCalls (host s')
                   = idleStatus (cfg_emojiDefault (host s)) (i_now i) :: apiCalls (host s)).
  { subst s'. unfold sinkEffect. cbn [host]. by destruct (i_api i). }
  assert (Htimers : timers (host s') = timers (host s)).
  { subst s'. unfold sinkEffect. cbn [host]. by destruct (i_api i). }
  split; [done|]. split; [done|]. split; [exact Hcalls|].
  split. { intros Hd. rewrite Hcalls. unfold idleStatus. by rewrite Hd. }
  split; [exact Htimers|].
  split. { subst s'. unfold sinkEffect. cbn [host]. by destruct (i_api i). }
  intros es Hes.
  destruct (run_ticks_while_idle es s' Hes eq_refl) as (c' & Hrun).
  rewrite Hrun. cbn [host set_host]. by rewrite <- Htimers.
Qed.

Lemma idle_transition_push_witness :
  idleReached (quiet (minutes 16)) (svc demoActive) = true
  /\ __isIdle (svc demoActive) = false
  /\ apiCalls (host (after (updateStatus "demo" (quiet (minutes 16)) demoActive)))
     = mkStatus (Some ":zzz:") (Some (minutes 76)) (Some "Idle - Away from keyboard")
       :: apiCalls (host demoActive).
Proof.
  split; [reflexivity|]. split; [reflexivity|].
  apply (proj1 (proj2 (proj2
    (idle_transition_push "demo" (quiet (minutes 16)) demoActive eq_refl eq_refl)))).
Defined.

(** *** Failure of the sink *)

(** C7. Whatever error the sink answers, a push returns normally, with the
    value and the service fields it has when the sink succeeds; the timers
    are the same as after a successful push and none of the timers live
    before the call is cancelled; the remote status is left as it was and
    the error is written to the console. The same holds for the idle push
    [setIdle] and the default push [setDefault]. *)
Theorem sink_failure_swallowed (ws : string) (i : Inputs) (s : State) (err : string) :
  (exists r, result (updateStatus ws (withApi (Some err) i) s) = Returned r
             /\ result (updateStatus ws (withApi None i) s) = Returned r)
  /\ svc (after (updateStatus ws (withApi (Some err) i) s))
     = svc (after (updateStatus ws (withApi None i) s))
  /\ timers (host (after (updateStatus ws (withApi (Some err) i) s)))
     = timers (host (after (updateStatus ws (withApi None i) s)))
  /\ timers (host s) `prefix_of` timers (host (after (updateStatus ws (withApi (Some err) i) s)))
  /\ remoteStatus (host (after (updateStatus ws (withApi (Some err) i) s)))
     = remoteStatus (host s)
  /\ apiCalls (host (after (updateStatus ws (withApi (Some err) i) s)))
     = apiCalls (host (after (updateStatus ws (withApi None i) s)))
  /\ (apiCalls (host (after (updateStatus ws (withApi (Some err) i) s))) = apiCalls (host s)
      /\ console (host (after (updateStatus ws (withApi (Some err) i) s))) = console (host s)
      \/ length (apiCalls (host (after (updateStatus ws (withApi (Some err) i) s))))
         = S (length (apiCalls (host s)))
         /\ console (host (after (updateStatus ws (withApi (Some err) i) s)))
            = err :: console (host s))
  /\ (result (setIdle (withApi (Some err) i) s) = Returned tt
      /\ svc (after (setIdle (withApi (Some err) i) s)) = svc s
      /\ timers (host (after (setIdle (withApi (Some err) i) s))) = timers (host s)
      /\ remoteStatus (host (after (setIdle (withApi (Some err) i) s))) = remoteStatus (host s)
      /\ console (host (after (setIdle (withApi (Some err) i) s))) = err :: console (host s))
  /\ (result (setDefault (Some err) s) = Returned tt
      /\ svc (after (setDefault (Some err) s)) = svc s
      /\ timers (host (after (setDefault (Some err) s))) = timers (host s)
      /\ remoteStatus (host (after (setDefault (Some err) s))) = remoteStatus (host s)
      /\ console (host (after (setDefault (Some err) s)))
         = if truthy (cfg_default (host s)) then err :: console (host s)
           else console (host s)).
Proof.
  destruct (resolveEmoji_spec i s) as (em & c & Hr).
  assert (Hko : resolveEmoji (withApi (Some err) i) s
                = (Returned em, set_host (with_cfg_emoji c) s)) by exact Hr.
  assert (Hok : resolveEmoji (withApi None i) s
                = (Returned em, set_host (with_cfg_emoji c) s)) by exact Hr.
  repeat split.
  1-7: unfold result, after.
  1-7: destruct (__isIdle (svc s)) eqn:HI;
    [ rewrite ?(updateStatus_while_idle ws _ s em c Hko HI),
              ?(updateStatus_while_idle ws _ s em c Hok HI)
    | destruct (idleReached i (svc s)) eqn:HG;
      [ rewrite ?(updateStatus_goes_idle ws _ s em c Hko HG HI),
                ?(updateStatus_goes_idle ws _ s em c Hok HG HI)
      | destruct (__start (svc s)) as [start|] eqn:HS;
        [ rewrite ?(updateStatus_later_push ws _ s em c Hko start HG HI HS),
                  ?(updateStatus_later_push ws _ s em c Hok start HG HI HS)
        | rewrite ?(updateStatus_first_push ws _ s em c Hko HG HI HS),
                  ?(updateStatus_first_push ws _ s em c Hok HG HI HS) ] ] ].
  all: cbn [fst snd svc host set_host withApi i_api i_now i_time].
  all: try (eexists; split; reflexivity).
  all: try reflexivity.
  all: try (by apply prefix_app_r).
  all: try (left; split; reflexivity).
  all: try (right; split; reflexivity).
  all: try (rewrite setIdle_spec; reflexivity).
  all: try (rewrite setDefault_spec; by destruct (truthy (cfg_default (host s)))).
Qed.

(** *** Resuming from idle *)

(** C1, on the code: when an activity event ends an idle period of the demo
    run, [onActivity] clears [isIdle] but leaves [__start] at the instant of
    the first push, so the resumed status reports the minutes elapsed since
    then ("for (20 minutes)") rather than starting again; the activate
    command, which goes through [resetActivity], does restart the session
    at the resume instant. *)
Theorem onActivity_resume_keeps_start :
  __isIdle (svc demoIdle) = true
  /\ __start (svc demoIdle) = Some 0
  /\ __isIdle (svc (step (Activity (minutes 20) (quiet (minutes 20))) demoIdle)) = false
  /\ __start (svc (step (Activity (minutes 20) (quiet (minutes 20))) demoIdle)) = Some 0
  /\ message <$> head (apiCalls (host (step (Activity (minutes 20) (quiet (minutes 20))) demoIdle)))
     = Some (Some "Working on demo for (20 minutes)")
  /\ __start (svc (step (Activate (minutes 20) (quiet (minutes 20))) demoIdle))
     = Some (minutes 20)
  /\ message <$> head (apiCalls (host (step (Activate (minutes 20) (quiet (minutes 20))) demoIdle)))
     = Some (Some "Working on demo").
Proof. repeat split; reflexivity. Qed.

(** *** Messages *)

(** C3, as stated, fails: the second push of the demo run, two minutes
    after the first, sends "Working on demo for (2 minutes)". *)
Lemma second_push_message_has_for :
  message <$> head (apiCalls (host (step (Tick 0 (quiet (minutes 2))) demoActive)))
  = Some (Some "Working on demo for (2 minutes)")
  /\ message <$> head (apiCalls (host (step (Tick 0 (quiet (minutes 2))) demoActive)))
     <> Some (Some "Working on demo (2 minutes)").
Proof. split; [reflexivity | discriminate]. Qed.

(** C3, amended. For workspace "demo", no language observed and no idle
    transition, the first push sends the message "Working on demo" and a
    push two minutes later sends "Working on demo for (2 minutes)". *)
Theorem demo_messages (i1 i2 : Inputs) (s : State) :
  __start (svc s) = None ->
  __currentLanguage (svc s) = None ->
  __isIdle (svc s) = false ->
  idleReached i1 (svc s) = false ->
  idleReached i2 (svc s) = false ->
  diffMinutes (i_time i2) (i_time i1) = 2 ->
  map message (take 1 (apiCalls (host (after (updateStatus "demo" i1 s)))))
  = [Some "Working on demo"]
  /\ map message
       (take 2 (apiCalls (host (after (updateStatus "demo" i2
                                         (after (updateStatus "demo" i1 s)))))))
     = [Some "Working on demo for (2 minutes)"; Some "Working on demo"].
Proof.
  intros HS HL HI HG1 HG2 Hd.
  destruct (resolveEmoji_spec i1 s) as (em1 & c1 & Hr1).
  pose proof (updateStatus_first_push "demo" i1 s em1 c1 Hr1 HG1 HI HS) as Hu1.
  unfold after at 1 3. rewrite Hu1. cbn [snd].
  set (s1 := mkState _ _).
  assert (Hcalls1 : map message (take 1 (apiCalls (host s1))) = [Some "Working on demo"]).
  { subst s1. cbn [host]. destruct (sinkEffect_fields (i_api i1)
      (activeStatus em1 (i_now i1) (__expires (svc s)) "demo" (__currentLanguage (svc s)) "")
      (with_timers (timers (host s) ++ [mkTimer (nextTimer (host s)) "demo" (__expires (svc s) * 60000)])
                   (S (nextTimer (host s))) (with_cfg_emoji c1 (host s)))) as (-> & _).
    rewrite HL. reflexivity. }
  split; [exact Hcalls1|].
  destruct (resolveEmoji_spec i2 s1) as (em2 & c2 & Hr2).
  pose proof (updateStatus_later_push "demo" i2 s1 em2 c2 Hr2 (i_time i1) HG2 HI eq_refl) as Hu2.
  unfold after. rewrite Hu2. cbn [snd host].
  match goal with
  | |- context [sinkEffect ?o ?st ?h] =>
      destruct (sinkEffect_fields o st h) as (-> & _)
  end.
  cbn [take map].
  assert (Hh : map message (take 1 (apiCalls (with_cfg_emoji c2 (host s1))))
              = [Some "Working on demo"]) by exact Hcalls1.
  rewrite Hh. subst s1. cbn [svc with_start __currentLanguage message activeStatus].
  rewrite HL, Hd. reflexivity.
Qed.

Lemma demo_messages_witness :
  __start (svc demoState) = None
  /\ __currentLanguage (svc demoState) = None
  /\ __isIdle (svc demoState) = false
  /\ idleReached (quiet 0) (svc demoState) = false
  /\ idleReached (quiet (minutes 2)) (svc demoState) = false
  /\ diffMinutes (i_time (quiet (minutes 2))) (i_time (quiet 0)) = 2
  /\ map message
       (take 2 (apiCalls (host (after (updateStatus "demo" (quiet (minutes 2))
                                         (after (updateStatus "demo" (quiet 0) demoState)))))))
     = [Some "Working on demo for (2 minutes)"; Some "Working on demo"].
Proof.
  do 6 (split; [reflexivity|]).
  apply (proj2 (demo_messages (quiet 0) (quiet (minutes 2)) demoState
                  eq_refl eq_refl eq_refl eq_refl eq_refl eq_refl)).
Defined.

(** *** The duration text *)

Lemma append_assoc (a b c : string) : (a +:+ b) +:+ c = a +:+ b +:+ c.
Proof.
  induction a as [|x a IH]; [done|].
  change (String x ((a +:+ b) +:+ c) = String x (a +:+ b +:+ c)).
  by f_equal.
Qed.

(** Away from sixty minutes the text of the code is the text of the
    specification, in parentheses. *)
Lemma diffText_matches_spec (n : Z) :
  1 <= n -> n <> 60 -> diffText n = "(" +:+ durationSpec n +:+ ")".
Proof.
  intros H1 H60. unfold diffText, durationSpec, plural.
  destruct (n >? 60) eqn:Hgt.
  - assert ((n <? 60) = false) as -> by lia.
    rewrite Z.rem_mod_nonneg by lia.
    rewrite !append_assoc. reflexivity.
  - assert ((n <? 60) = true) as -> by lia.
    rewrite !append_assoc. reflexivity.
Qed.

(** C6, on the code: at exactly sixty elapsed minutes the code renders
    "(60 minutes)", where the specification's wording gives
    "1 hour 0 minute"; the push of that minute carries the former. *)
Theorem diffText_sixty :
  diffText 60 = "(60 minutes)"
  /\ durationSpec 60 = "1 hour 0 minute"
  /\ diffText 60 <> "(" +:+ durationSpec 60 +:+ ")"
  /\ diffText 59 = "(" +:+ durationSpec 59 +:+ ")"
  /\ diffText 61 = "(" +:+ durationSpec 61 +:+ ")"
  /\ message <$> head (apiCalls (host
       (run [Activity (minutes 59) (quiet (minutes 59)); Tick 0 (quiet (minutes 60))]
            demoActive)))
     = Some (Some "Working on demo for (60 minutes)").
Proof. repeat split; try reflexivity. discriminate. Qed.

(** *** The emoji catalog *)

(** [getCachedEmojis] always returns, and changes at most the console. *)
Lemma getCachedEmojis_returns (i : LoadInputs) (s : State) :
  exists r l, getCachedEmojis i s
              = (Returned r, set_host (with_console l) s).
Proof.
  assert (Hsame : s = set_host (with_console (console (host s))) s).
  { destruct s as [c h]. by destruct h. }
  unfold getCachedEmojis. unfold bind at 1, get.
  destruct (__context (svc s)); cbn [negb].
  2: { exists None, (console (host s)). unfold ret. by rewrite <- Hsame. }
  unfold tryCatch, bind, throw, ret, consoleError, modify.
  destruct (l_read i) as [e|].
  - by eexists _, _.
  - destruct (gs_emojiCache (host s)) as [items|], (gs_emojiCacheTimestamp (host s)) as [ts|];
      try (exists None, (console (host s)); by rewrite <- Hsame).
    destruct (ts =? 0); [exists None, (console (host s)); by rewrite <- Hsame|].
    destruct (_ >? _); eexists _, (console (host s)); by rewrite <- Hsame.
Qed.

(** With a context, a readable store and a record whose timestamp is not
    zero, the answer depends only on the age of the record. *)
Lemma getCachedEmojis_record (i : LoadInputs) (s : State)
    (items : list EmojiCacheItem) (ts : Z) :
  __context (svc s) = true -> l_read i = None ->
  gs_emojiCache (host s) = Some items ->
  gs_emojiCacheTimestamp (host s) = Some ts -> ts <> 0 ->
  getCachedEmojis i s
  = (Returned (if l_now i - ts >? 86400000 then None else Some items), s).
Proof.
  intros Hc Hread Hitems Hts Hnz.
  unfold getCachedEmojis. unfold bind at 1, get. rewrite Hc. cbn [negb].
  unfold tryCatch, bind, throw, ret. rewrite Hread, Hitems, Hts.
  assert ((ts =? 0) = false) as -> by lia.
  change (CACHE_EXPIRY_HOURS * 60 * 60 * 1000) with 86400000.
  by destruct (_ >? _).
Qed.

(** [cacheEmojis] always returns and leaves the service and the fetch
    counter alone. *)
Lemma cacheEmojis_returns (i : LoadInputs) (items : list EmojiCacheItem) (s : State) :
  exists s', cacheEmojis i items s = (Returned tt, s')
             /\ svc s' = svc s /\ fetches (host s') = fetches (host s).
Proof.
  unfold cacheEmojis. unfold bind at 1, get.
  destruct (__context (svc s)); cbn [negb]; [|by eexists].
  unfold tryCatch, bind, throw, ret, consoleError, modify.
  destruct (l_write1 i), (l_write2 i); by eexists.
Qed.

Section Load.

Variables (i : LoadInputs) (s s1 : State) (r : option (list EmojiCacheItem)).
Hypothesis Hcached : getCachedEmojis i s = (Returned r, s1).

Lemma loadEmojis_hit (e : EmojiCacheItem) (es : list EmojiCacheItem) :
  r = Some (e :: es) ->
  exists s', loadEmojis i s = (Returned tt, s')
             /\ fetches (host s') = fetches (host s1)
             /\ getAvailableEmojis s' = e :: es.
Proof.
  intros ->. unfold loadEmojis, tryCatch. unfold bind at 1.
  rewrite Hcached. unfold bind, modify. by eexists.
Qed.

Lemma loadEmojis_miss :
  isMiss r = true ->
  exists s', loadEmojis i s = (Returned tt, s')
             /\ fetches (host s') = S (fetches (host s1))
             /\ match l_fetch i with
                | FetchRejected _ | FetchResponse true None =>
                    getAvailableEmojis s' = map entryOf fallbackEmojis
                | FetchResponse true (Some body) =>
                    getAvailableEmojis s' = map entryOf body
                | FetchResponse false _ => svc s' = svc s1
                end.
Proof.
  intros Hmiss. unfold loadEmojis, tryCatch. unfold bind at 1.
  rewrite Hcached.
  assert (Hgo : forall (k : EmojiCacheItem -> list EmojiCacheItem -> M unit),
    match r with
    | Some (e :: es) => k e es
    | _ => fetchEmojis i
    end = fetchEmojis i).
  { intros k. destruct r as [[|e es]|]; try reflexivity. discriminate Hmiss. }
  rewrite Hgo. clear Hgo.
  unfold fetchEmojis, doFetch. unfold bind at 1. unfold bind at 1, modify.
  destruct (l_fetch i) as [err|[|] [body|]]; unfold throw, ret; cbn [fst snd].
  - by eexists.
  - unfold bind at 1. unfold bind at 1. unfold bind at 1, get.
    cbn [set_svc set_host svc host with_emojiCache __emojiCache].
    match goal with
    | |- context [cacheEmojis i ?it ?st] =>
        destruct (cacheEmojis_returns i it st) as (s' & -> & Hsvc & Hf)
    end.
    exists s'. unfold getAvailableEmojis. rewrite Hsvc, Hf. by cbn.
  - by eexists.
  - by eexists.
  - by eexists.
Qed.

Lemma loadEmojis_populates (body : list (string * string)) :
  isMiss r = true -> __context (svc s1) = true ->
  l_fetch i = FetchResponse true (Some body) ->
  l_write1 i = None -> l_write2 i = None ->
  exists s', loadEmojis i s = (Returned tt, s')
             /\ fetches (host s') = S (fetches (host s1))
             /\ getAvailableEmojis s' = map entryOf body
             /\ gs_emojiCache (host s') = Some (map entryOf body)
             /\ gs_emojiCacheTimestamp (host s') = Some (l_writeNow i).
Proof.
  intros Hmiss Hctx Hf Hw1 Hw2. unfold loadEmojis, tryCatch. unfold bind at 1.
  rewrite Hcached.
  assert (Hgo : forall (k : EmojiCacheItem -> list EmojiCacheItem -> M unit),
    match r with
    | Some (e :: es) => k e es
    | _ => fetchEmojis i
    end = fetchEmojis i).
  { intros k. destruct r as [[|e es]|]; try reflexivity. discriminate Hmiss. }
  rewrite Hgo. clear Hgo.
  unfold fetchEmojis, doFetch, cacheEmojis, tryCatch, bind, modify, get, ret, throw.
  rewrite Hf, Hw1, Hw2. cbn [fst snd svc set_svc set_host with_emojis with_emojiCache
                              __context host].
  rewrite Hctx. cbn [negb]. by eexists.
Qed.

End Load.

(** Catalog load never raises. *)
Lemma loadEmojis_returns (i : LoadInputs) (s : State) :
  exists s', loadEmojis i s = (Returned tt, s').
Proof.
  destruct (getCachedEmojis_returns i s) as (r & l & Hc).
  destruct (isMiss r) eqn:Hm.
  - destruct (loadEmojis_miss i s _ r Hc Hm) as (s' & H & _). by exists s'.
  - destruct r as [[|e es]|]; try discriminate Hm.
    destruct (loadEmojis_hit i s _ _ Hc e es eq_refl) as (s' & H & _). by exists s'.
Qed.

(** The cache check changes neither the service nor the fetch counter, and
    answers [null] or the stored entry list. *)
Lemma getCachedEmojis_result (i : LoadInputs) (s s1 : State)
    (r : option (list EmojiCacheItem)) :
  getCachedEmojis i s = (Returned r, s1) ->
  svc s1 = svc s /\ fetches (host s1) = fetches (host s)
  /\ (r = None \/ r = gs_emojiCache (host s)).
Proof.
  unfold getCachedEmojis. unfold bind at 1, get.
  destruct (__context (svc s)); cbn [negb].
  2: { unfold ret. intros [= <- <-]. auto. }
  unfold tryCatch, bind, throw, ret, consoleError, modify.
  destruct (l_read i) as [e|].
  { intros [= <- <-]. auto. }
  destruct (gs_emojiCache (host s)) as [items|], (gs_emojiCacheTimestamp (host s)) as [ts|];
    try (intros [= <- <-]; auto).
  destruct (ts =? 0); [intros [= <- <-]; auto|].
  destruct (_ >? _); intros [= <- <-]; auto.
Qed.

(** Without a stored record the cache check answers [null]. *)
Lemma getCachedEmojis_empty_store (i : LoadInputs) (s : State) :
  gs_emojiCache (host s) = None ->
  exists l, getCachedEmojis i s = (Returned None, set_host (with_console l) s).
Proof.
  intros Hnone. destruct (getCachedEmojis_returns i s) as (r & l & Hc).
  exists l. rewrite Hc. f_equal. f_equal.
  revert Hc. unfold getCachedEmojis. unfold bind at 1, get.
  destruct (__context (svc s)); cbn [negb]; [|unfold ret; congruence].
  unfold tryCatch, bind, throw, ret, consoleError, modify. rewrite Hnone.
  destruct (l_read i); congruence.
Qed.

(** C8, as stated, fails: a stored record whose entry list is empty is
    never used, however recent it is. Here the record is 1000 ms old and
    the load still goes to the remote directory. The record of
    [cachedState], which has one entry, is not used either by a service
    built without an extension context, when it is stamped 0, or when the
    store cannot be read: each of these loads fetches as well. *)
Lemma empty_record_refetches :
  gs_emojiCache (host emptyRecordState) = Some []
  /\ gs_emojiCacheTimestamp (host emptyRecordState) = Some 1000
  /\ l_now (loadAt 2000 (FetchResponse true (Some [("rocket", "u")]))) - 1000
     < CACHE_EXPIRY_HOURS * 60 * 60 * 1000
  /\ fetches (host emptyRecordState) = 0%nat
  /\ fetches (host (after (loadEmojis (loadAt 2000 (FetchResponse true (Some [("rocket", "u")])))
                                      emptyRecordState))) = 1%nat
  /\ getAvailableEmojis (after (loadEmojis (loadAt 2000 (FetchResponse true (Some [("rocket", "u")])))
                                           emptyRecordState))
     = [mkItem "rocket" "u"]
  /\ (gs_emojiCache (host noContextState) = Some [mkItem "rocket" "u"]
      /\ gs_emojiCacheTimestamp (host noContextState) = Some 1000
      /\ fetches (host noContextState) = 1%nat
      /\ fetches (host (after (loadEmojis (loadAt 2000 (FetchRejected "offline"))
                                          noContextState))) = 2%nat)
  /\ (gs_emojiCache (host zeroStampState) = Some [mkItem "rocket" "u"]
      /\ gs_emojiCacheTimestamp (host zeroStampState) = Some 0
      /\ fetches (host zeroStampState) = 1%nat
      /\ fetches (host (after (loadEmojis (loadAt 2000 (FetchRejected "offline"))
                                          zeroStampState))) = 2%nat)
  /\ (fetches (host cachedState) = 1%nat
      /\ fetches (host (after (loadEmojis (unreadableAt 2000 (FetchRejected "offline"))
                                          cachedState))) = 2%nat).
Proof. repeat split; reflexivity. Qed.

(** C8, amended. With an extension context, a readable store, and a stored
    record whose entry list is not empty and whose timestamp is not zero:
    when the record is less than 24 hours old the load uses it, without a
    fetch, and yields its entries; when the record is more than 24 hours
    old the load fetches once; so, for every age other than 24 hours
    exactly, the load goes without a fetch exactly when the age is inside
    the window. A stored record whose entry list is empty is never used:
    the load fetches once, whatever the age of the record, the context and
    the store. In particular, after a load that fetched a non-empty
    directory and stored it, a load by any service with a context, less
    than 24 hours after the stored timestamp, fetches nothing and yields
    the same entries. *)
Theorem cache_hit_iff_within_window :
  (forall (i : LoadInputs) (s : State) (items : list EmojiCacheItem) (ts : Z),
      __context (svc s) = true -> l_read i = None ->
      gs_emojiCache (host s) = Some items ->
      gs_emojiCacheTimestamp (host s) = Some ts ->
      items <> [] -> ts <> 0 ->
      (l_now i - ts < 24 * 60 * 60 * 1000 ->
          fetches (host (after (loadEmojis i s))) = fetches (host s)
          /\ getAvailableEmojis (after (loadEmojis i s)) = items)
      /\ (24 * 60 * 60 * 1000 < l_now i - ts ->
          fetches (host (after (loadEmojis i s))) = S (fetches (host s)))
      /\ (l_now i - ts <> 24 * 60 * 60 * 1000 ->
          (fetches (host (after (loadEmojis i s))) = fetches (host s)
             <-> l_now i - ts < 24 * 60 * 60 * 1000)))
  /\ (forall (i : LoadInputs) (s : State),
      gs_emojiCache (host s) = Some [] ->
      fetches (host (after (loadEmojis i s))) = S (fetches (host s)))
  /\ (forall (i1 i2 : LoadInputs) (s : State) (c2 : Service) (body : list (string * string)),
      __context (svc s) = true -> gs_emojiCache (host s) = None ->
      l_fetch i1 = FetchResponse true (Some body) -> body <> [] ->
      l_write1 i1 = None -> l_write2 i1 = None -> l_writeNow i1 <> 0 ->
      __context c2 = true -> l_read i2 = None ->
      l_now i2 - l_writeNow i1 < 24 * 60 * 60 * 1000 ->
      fetches (host (after (loadEmojis i1 s))) = S (fetches (host s))
      /\ fetches (host (after (loadEmojis i2 (mkState c2 (host (after (loadEmojis i1 s)))))))
         = fetches (host (after (loadEmojis i1 s)))
      /\ getAvailableEmojis (after (loadEmojis i2 (mkState c2 (host (after (loadEmojis i1 s))))))
         = getAvailableEmojis (after (loadEmojis i1 s))).
Proof.
  split; [|split].
  - intros i s items ts Hctx Hread Hitems Hts Hne Hnz.
    pose proof (getCachedEmojis_record i s items ts Hctx Hread Hitems Hts Hnz) as Hc.
    change (24 * 60 * 60 * 1000) with 86400000.
    destruct (l_now i - ts >? 86400000) eqn:Hage.
    + destruct (loadEmojis_miss i s s None Hc eq_refl) as (s' & Hl & Hf & _).
      unfold after. rewrite Hl. cbn [snd]. rewrite Hf.
      repeat split; intros; lia.
    + destruct items as [|e es]; [done|].
      destruct (loadEmojis_hit i s s _ Hc e es eq_refl) as (s' & Hl & Hf & Hav).
      unfold after. rewrite Hl. cbn [snd]. rewrite Hf, Hav.
      repeat split; intros; try done; lia.
  - intros i s Hempty.
    destruct (getCachedEmojis_returns i s) as (r & l & Hc).
    destruct (getCachedEmojis_result i s _ r Hc) as (_ & Hf & Hr).
    assert (Hm : isMiss r = true).
    { destruct Hr as [-> | ->]; [done|]. by rewrite Hempty. }
    destruct (loadEmojis_miss i s _ r Hc Hm) as (s' & Hl & Hf' & _).
    unfold after. rewrite Hl. cbn [snd]. by rewrite Hf', Hf.
  - intros i1 i2 s c2 body Hctx Hnone Hfetch Hbody Hw1 Hw2 Hnz Hctx2 Hread2 Hage.
    destruct (getCachedEmojis_empty_store i1 s Hnone) as (l & Hc1).
    destruct (loadEmojis_populates i1 s _ None Hc1 body eq_refl Hctx Hfetch Hw1 Hw2)
      as (s1 & Hl1 & Hf1 & Hav1 & Hst & Hts).
    unfold after at 1 3 5 6. rewrite Hl1. cbn [snd].
    split; [exact Hf1|].
    assert (Hc2 : getCachedEmojis i2 (mkState c2 (host s1))
                  = (Returned (if l_now i2 - l_writeNow i1 >? 86400000
                               then None else Some (map entryOf body)),
                     mkState c2 (host s1))).
    { by apply getCachedEmojis_record. }
    assert ((l_now i2 - l_writeNow i1 >? 86400000) = false) as Hin by lia.
    rewrite Hin in Hc2.
    destruct body as [|p body]; [done|].
    destruct (loadEmojis_hit i2 _ _ _ Hc2 (entryOf p) (map entryOf body) eq_refl)
      as (s2 & Hl2 & Hf2 & Hav2).
    unfold after. rewrite Hl2. cbn [snd]. by rewrite Hf2, Hav2, Hav1.
Qed.

Lemma cache_hit_iff_within_window_witness :
  (__context (svc cachedState) = true
   /\ l_read (loadAt 5000 (FetchRejected "offline")) = None
   /\ gs_emojiCache (host cachedState) = Some [mkItem "rocket" "u"]
   /\ gs_emojiCacheTimestamp (host cachedState) = Some 1000
   /\ [mkItem "rocket" "u"] <> []
   /\ 1000 <> 0
   /\ l_now (loadAt 5000 (FetchRejected "offline")) - 1000 < 24 * 60 * 60 * 1000
   /\ getAvailableEmojis (after (loadEmojis (loadAt 5000 (FetchRejected "offline")) cachedState))
      = [mkItem "rocket" "u"])
  /\ (gs_emojiCache (host emptyRecordState) = Some []
      /\ fetches (host (after (loadEmojis (loadAt 5000 (FetchRejected "offline"))
                                          emptyRecordState)))
         = S (fetches (host emptyRecordState)))
  /\ (__context (svc demoState) = true
      /\ gs_emojiCache (host demoState) = None
      /\ l_fetch (loadAt 1000 (FetchResponse true (Some demoDirectory)))
         = FetchResponse true (Some demoDirectory)
      /\ demoDirectory <> []
      /\ l_write1 (loadAt 1000 (FetchResponse true (Some demoDirectory))) = None
      /\ l_write2 (loadAt 1000 (FetchResponse true (Some demoDirectory))) = None
      /\ l_writeNow (loadAt 1000 (FetchResponse true (Some demoDirectory))) <> 0
      /\ __context (newService 1 15 true 4000) = true
      /\ l_read (loadAt 5000 (FetchRejected "offline")) = None
      /\ l_now (loadAt 5000 (FetchRejected "offline"))
         - l_writeNow (loadAt 1000 (FetchResponse true (Some demoDirectory)))
         < 24 * 60 * 60 * 1000
      /\ fetches (host (after (loadEmojis (loadAt 5000 (FetchRejected "offline"))
                                 (mkState (newService 1 15 true 4000) (host cachedState)))))
         = fetches (host cachedState)).
Proof.
  split; [|split].
  - do 4 (split; [reflexivity|]). split; [discriminate|]. split; [discriminate|].
    split; [reflexivity|].
    apply (proj2 (proj1 (proj1 cache_hit_iff_within_window
             (loadAt 5000 (FetchRejected "offline")) cachedState
             [mkItem "rocket" "u"] 1000
             eq_refl eq_refl eq_refl eq_refl
             ltac:(discriminate) ltac:(discriminate)) eq_refl)).
  - split; [reflexivity|].
    apply (proj1 (proj2 cache_hit_iff_within_window)
             (loadAt 5000 (FetchRejected "offline")) emptyRecordState eq_refl).
  - do 3 (split; [reflexivity|]). split; [discriminate|].
    do 2 (split; [reflexivity|]). split; [discriminate|].
    do 2 (split; [reflexivity|]). split; [reflexivity|].
    apply (proj1 (proj2 (proj2 (proj2 cache_hit_iff_within_window)
             (loadAt 1000 (FetchResponse true (Some demoDirectory)))
             (loadAt 5000 (FetchRejected "offline"))
             demoState (newService 1 15 true 4000) demoDirectory
             eq_refl eq_refl eq_refl ltac:(discriminate) eq_refl eq_refl
             ltac:(discriminate) eq_refl eq_refl eq_refl))).
Defined.

(** C9, on the code: catalog load never raises, and a rejected fetch or an
    unreadable body yields the six built-in entries; but a response that
    resolves with [ok] false (an HTTP error status) takes neither the
    [if (response.ok)] branch nor the [catch] block, and the catalog of the
    freshly built demo service stays empty. *)
Theorem http_error_leaves_catalog_empty :
  (forall (i : LoadInputs) (s : State), exists s', loadEmojis i s = (Returned tt, s'))
  /\ map name (map entryOf fallbackEmojis)
     = ["computer"; "rocket"; "zap"; "coffee"; "fire"; "house"]
  /\ getAvailableEmojis (after (loadEmojis (loadAt 0 (FetchRejected "ENOTFOUND")) demoState))
     = map entryOf fallbackEmojis
  /\ getAvailableEmojis (after (loadEmojis (loadAt 0 (FetchResponse true None)) demoState))
     = map entryOf fallbackEmojis
  /\ getAvailableEmojis (after (loadEmojis (loadAt 0 (FetchResponse false None)) demoState))
     = []
  /\ fetches (host (after (loadEmojis (loadAt 0 (FetchResponse false None)) demoState)))
     = 1%nat
  /\ getAvailableEmojis (after (loadEmojis (loadAt 0 (FetchResponse false None)) demoState))
     <> map entryOf fallbackEmojis.
Proof.
  split; [exact loadEmojis_returns|].
  repeat split; try reflexivity. discriminate.
Qed.

(** * Further properties of the synchroniser *)

(** *** The emoji of a status *)

Lemma updateStatus_cfg_emoji (ws : string) (i : Inputs) (s : State)
    (em : string) (c : option string) :
  resolveEmoji i s = (Returned em, set_host (with_cfg_emoji c) s) ->
  cfg_emoji (host (after (updateStatus ws i s))) = c.
Proof.
  intros Hr. unfold after.
  destruct (__isIdle (svc s)) eqn:HI.
  { by rewrite (updateStatus_while_idle ws i s em c Hr HI). }
  destruct (idleReached i (svc s)) eqn:HG.
  { rewrite (updateStatus_goes_idle ws i s em c Hr HG HI). cbn [snd host].
    by rewrite (proj2 (proj2 (proj2 (sinkEffect_fields _ _ _)))). }
  destruct (__start (svc s)) as [start|] eqn:HS.
  - rewrite (updateStatus_later_push ws i s em c Hr start HG HI HS). cbn [snd host].
    by rewrite (proj2 (proj2 (proj2 (sinkEffect_fields _ _ _)))).
  - rewrite (updateStatus_first_push ws i s em c Hr HG HI HS). cbn [snd host].
    by rewrite (proj2 (proj2 (proj2 (sinkEffect_fields _ _ _)))).
Qed.

(** The emoji of the status sent by a push that does not go idle. *)
Lemma updateStatus_active_emoji (ws : string) (i : Inputs) (s : State)
    (em : string) (c : option string) :
  resolveEmoji i s = (Returned em, set_host (with_cfg_emoji c) s) ->
  idleReached i (svc s) = false -> __isIdle (svc s) = false ->
  emoji <$> head (apiCalls (host (after (updateStatus ws i s))))
  = Some (Some (":" +:+ em +:+ ":")).
Proof.
  intros Hr HG HI. unfold after.
  destruct (__start (svc s)) as [start|] eqn:HS.
  - rewrite (updateStatus_later_push ws i s em c Hr start HG HI HS). cbn [snd host].
    by rewrite (proj1 (sinkEffect_fields _ _ _)).
  - rewrite (updateStatus_first_push ws i s em c Hr HG HI HS). cbn [snd host].
    by rewrite (proj1 (sinkEffect_fields _ _ _)).
Qed.

Lemma resolveEmoji_configured (i : Inputs) (s : State) (e : string) :
  cfg_emoji (host s) = Some e -> e <> "" ->
  resolveEmoji i s = (Returned e, set_host (with_cfg_emoji (Some e)) s).
Proof.
  intros Hc Hne. unfold resolveEmoji, bind, get, ret.
  rewrite Hc. cbn [truthy default].
  assert (String.eqb e "" = false) as -> by by apply String.eqb_neq.
  cbn [negb]. by rewrite <- Hc, set_host_same.
Qed.

(** X1. With no emoji configured, a name picked from the catalog is saved
    in the configuration by the call that prompted for it, whichever path
    the call then takes; from then on every call uses the saved name and
    ignores what the quick pick would answer. *)
Theorem picked_emoji_is_saved (ws ws' : string) (i i' : Inputs) (s : State) (n : string) :
  truthy (cfg_emoji (host s)) = false ->
  i_pick i = Some n ->
  n <> "" ->
  n ∈ map name (__emojiCache (svc s)) ->
  cfg_emoji (host (after (updateStatus ws i s))) = Some n
  /\ (idleReached i (svc s) = false -> __isIdle (svc s) = false ->
      emoji <$> head (apiCalls (host (after (updateStatus ws i s))))
      = Some (Some (":" +:+ n +:+ ":")))
  /\ cfg_emoji (host (after (updateStatus ws' i' (after (updateStatus ws i s))))) = Some n
  /\ (idleReached i' (svc (after (updateStatus ws i s))) = false ->
      __isIdle (svc (after (updateStatus ws i s))) = false ->
      emoji <$> head (apiCalls (host (after (updateStatus ws' i' (after (updateStatus ws i s))))))
      = Some (Some (":" +:+ n +:+ ":"))).
Proof.
  intros Hcfg Hpick Hne Hin.
  assert (Hr : resolveEmoji i s = (Returned n, set_host (with_cfg_emoji (Some n)) s)).
  { unfold resolveEmoji, selectEmoji, bind, get, ret, modify.
    rewrite Hcfg, Hpick.
    assert (existsb (fun e => String.eqb (name e) n) (__emojiCache (svc s)) = true) as ->.
    { apply existsb_exists. apply list_elem_of_fmap in Hin as (e & -> & He).
      exists e. split; [by apply list_elem_of_In | by apply String.eqb_refl]. }
    cbn [truthy]. assert (String.eqb n "" = false) as -> by by apply String.eqb_neq.
    reflexivity. }
  pose proof (updateStatus_cfg_emoji ws i s n (Some n) Hr) as Hsaved.
  assert (Hr' : resolveEmoji i' (after (updateStatus ws i s))
                = (Returned n, set_host (with_cfg_emoji (Some n)) (after (updateStatus ws i s)))).
  { by apply resolveEmoji_configured. }
  split; [exact Hsaved|]. split.
  { intros HG HI. by apply (updateStatus_active_emoji ws i s n (Some n)). }
  split.
  { by apply (updateStatus_cfg_emoji ws' i' _ n (Some n)). }
  intros HG HI. by apply (updateStatus_active_emoji ws' i' _ n (Some n)).
Qed.

(** X2. With no emoji configured, when the quick pick is dismissed (or
    answers a name that is not in the catalog, as it does for an empty
    catalog), the status carries ":computer:" and nothing is saved: the
    configuration still has no emoji, so the next call prompts again. *)
Theorem dismissed_pick_uses_computer (ws : string) (i : Inputs) (s : State) :
  truthy (cfg_emoji (host s)) = false ->
  (forall n, i_pick i = Some n -> n ∉ map name (__emojiCache (svc s))) ->
  cfg_emoji (host (after (updateStatus ws i s))) = cfg_emoji (host s)
  /\ (idleReached i (svc s) = false -> __isIdle (svc s) = false ->
      emoji <$> head (apiCalls (host (after (updateStatus ws i s))))
      = Some (Some ":computer:")).
Proof.
  intros Hcfg Hpick.
  assert (Hr : resolveEmoji i s
               = (Returned "computer", set_host (with_cfg_emoji (cfg_emoji (host s))) s)).
  { rewrite set_host_same.
    unfold resolveEmoji, selectEmoji, bind, get, ret, modify. rewrite Hcfg.
    destruct (i_pick i) as [n|] eqn:Hp; [|done].
    assert (existsb (fun e => String.eqb (name e) n) (__emojiCache (svc s)) = false) as ->; [|done].
    apply not_true_is_false. intros Hex. apply existsb_exists in Hex as (e & He & Heq).
    apply String.eqb_eq in Heq. apply (Hpick n eq_refl).
    apply list_elem_of_fmap. exists e. split; [done | by apply list_elem_of_In]. }
  split.
  - by apply (updateStatus_cfg_emoji ws i s "computer").
  - intros HG HI.
    by apply (updateStatus_active_emoji ws i s "computer" (cfg_emoji (host s))).
Qed.

Lemma picked_emoji_is_saved_witness :
  truthy (cfg_emoji (host pickState)) = false
  /\ i_pick (mkInputs (Some "rocket") 0 0 None) = Some "rocket"
  /\ "rocket" <> ""
  /\ "rocket" ∈ map name (__emojiCache (svc pickState))
  /\ cfg_emoji (host (after (updateStatus "demo" (quiet (minutes 1))
                       (after (updateStatus "demo" (mkInputs (Some "rocket") 0 0 None) pickState)))))
     = Some "rocket".
Proof.
  split; [reflexivity|]. split; [reflexivity|]. split; [discriminate|].
  assert (Hin : "rocket" ∈ map name (__emojiCache (svc pickState))).
  { apply list_elem_of_In. simpl. tauto. }
  split; [exact Hin|].
  apply (proj1 (proj2 (proj2
    (picked_emoji_is_saved "demo" "demo" (mkInputs (Some "rocket") 0 0 None)
       (quiet (minutes 1)) pickState "rocket" eq_refl eq_refl ltac:(discriminate) Hin)))).
Defined.

Lemma dismissed_pick_uses_computer_witness :
  truthy (cfg_emoji (host pickState)) = false
  /\ (forall n, i_pick (quiet 0) = Some n -> n ∉ map name (__emojiCache (svc pickState)))
  /\ cfg_emoji (host (after (updateStatus "demo" (quiet 0) pickState))) = None.
Proof.
  split; [reflexivity|].
  assert (Hp : forall n, i_pick (quiet 0) = Some n -> n ∉ map name (__emojiCache (svc pickState))).
  { intros n Hn. discriminate Hn. }
  split; [exact Hp|].
  apply (proj1 (dismissed_pick_uses_computer "demo" (quiet 0) pickState eq_refl Hp)).
Defined.

(** *** Timers *)

Lemma updateStatus_timers_started (ws : string) (i : Inputs) (s : State) (t0 : Z) :
  __start (svc s) = Some t0 ->
  timers (host (after (updateStatus ws i s))) = timers (host s)
  /\ nextTimer (host (after (updateStatus ws i s))) = nextTimer (host s).
Proof.
  intros H0. destruct (resolveEmoji_spec i s) as (em & c & Hr). unfold after.
  destruct (__isIdle (svc s)) eqn:HI.
  { by rewrite (updateStatus_while_idle ws i s em c Hr HI). }
  destruct (idleReached i (svc s)) eqn:HG.
  { rewrite (updateStatus_goes_idle ws i s em c Hr HG HI). cbn [snd host].
    by destruct (sinkEffect_fields (i_api i) (idleStatus (cfg_emojiDefault (host s)) (i_now i))
                   (with_cfg_emoji c (host s))) as (_ & -> & -> & _). }
  rewrite (updateStatus_later_push ws i s em c Hr t0 HG HI H0). cbn [snd host].
  match goal with
  | |- context [sinkEffect ?o ?st ?h] =>
      by destruct (sinkEffect_fields o st h) as (_ & -> & -> & _)
  end.
Qed.

(** [onActivity], unfolded. *)
Lemma onActivity_spec (t : Z) (i : Inputs) (s : State) :
  onActivity t i s
  = (Returned tt,
     if __isIdle (svc s)
     then if truthy (workspace_name (host s))
          then after (updateStatus (default "" (workspace_name (host s))) i
                        (set_svc (with_isIdle false) (set_svc (with_lastActivity t) s)))
          else set_svc (with_isIdle false) (set_svc (with_lastActivity t) s)
     else set_svc (with_lastActivity t) s).
Proof.
  unfold onActivity, bind, modify, get, ret, notAwaited, after.
  cbn [svc set_svc with_lastActivity __isIdle host].
  destruct (__isIdle (svc s)); [|done].
  by destruct (truthy (workspace_name (host s))).
Qed.

Lemma onActivity_timers_started (t : Z) (i : Inputs) (s : State) (t0 : Z) :
  __start (svc s) = Some t0 ->
  timers (host (after (onActivity t i s))) = timers (host s)
  /\ nextTimer (host (after (onActivity t i s))) = nextTimer (host s).
Proof.
  intros H0. unfold after at 1 2. rewrite onActivity_spec. cbn [snd].
  destruct (__isIdle (svc s)); [|done].
  destruct (truthy (workspace_name (host s))); [|done].
  match goal with
  | |- context [updateStatus ?w i ?st] =>
      apply (updateStatus_timers_started w i st t0)
  end.
  done.
Qed.

Lemma step_timers_started (e : Event) (s : State) (t0 : Z) :
  isCommand e = false -> __start (svc s) = Some t0 ->
  timers (host (step e s)) = timers (host s)
  /\ nextTimer (host (step e s)) = nextTimer (host s).
Proof.
  intros He H0. destruct e as [id i|t i|l t i|t i|o1 o2]; try discriminate He; cbn [step].
  - destruct (findTimer id (timers (host s))) as [tm|]; [|done].
    unfold notAwaited, after. cbn [snd].
    by apply (updateStatus_timers_started _ _ _ t0).
  - by apply (onActivity_timers_started _ _ _ t0).
  - assert (Hsave : after (onSave l t i s)
                    = after (onActivity t i (set_svc (with_currentLanguage (Some l)) s)))
      by done.
    rewrite Hsave.
    by destruct (onActivity_timers_started t i
                   (set_svc (with_currentLanguage (Some l)) s) t0 H0) as [-> ->].
Qed.

(** A delay between 1 ms and [TIMEOUT_MAX] is used as it is. *)
Lemma effectiveDelay_in_range (period : Z) :
  1 <= period <= TIMEOUT_MAX -> effectiveDelay period = period.
Proof.
  intros [Hlo Hhi]. unfold effectiveDelay.
  assert ((period <? 1) = false) as -> by lia.
  assert ((TIMEOUT_MAX <? period) = false) as -> by lia.
  done.
Qed.

(** X3. A push that starts a session (no session running, user neither
    idle nor found idle), with a configured interval whose delay in
    milliseconds the runtime takes as it is (between 1 and [TIMEOUT_MAX],
    that is an interval of 1 to 35791 minutes) and an expiry instant that a
    [Date] can hold, registers exactly one timer, whose requested and
    effective period is the configured interval in milliseconds, and
    returns its handle; the status it sends expires [OFFSET] after one
    period from the clock reading. From then on timer ticks, activity
    events and saves never register or cancel a timer, in any number and
    order. *)
Theorem session_start_registers_one_timer (ws : string) (i : Inputs) (s : State) :
  __start (svc s) = None ->
  __isIdle (svc s) = false ->
  idleReached i (svc s) = false ->
  1 <= __expires (svc s) * 60000 <= TIMEOUT_MAX ->
  validDate (OFFSET + i_now i + __expires (svc s) * 60000) = true ->
  result (updateStatus ws i s) = Returned (Some (nextTimer (host s)))
  /\ timers (host (after (updateStatus ws i s)))
     = timers (host s) ++ [mkTimer (nextTimer (host s)) ws (__expires (svc s) * 60000)]
  /\ effectiveDelay <$> (t_period <$> last (timers (host (after (updateStatus ws i s)))))
     = Some (__expires (svc s) * 60000)
  /\ 1 <= __expires (svc s) <= 35791
  /\ expiresAt <$> head (apiCalls (host (after (updateStatus ws i s))))
     = Some (Some (i_now i + __expires (svc s) * 60000 + OFFSET))
  /\ (forall es, forallb (fun e => negb (isCommand e)) es = true ->
        timers (host (run es (after (updateStatus ws i s))))
        = timers (host (after (updateStatus ws i s)))).
Proof.
  intros HS HI HG Hdelay Hdate. destruct (resolveEmoji_spec i s) as (em & c & Hr).
  pose proof (updateStatus_first_push ws i s em c Hr HG HI HS) as Hu.
  unfold result, after. rewrite Hu. cbn [fst snd].
  set (s1 := mkState _ _).
  assert (Htimers : timers (host s1)
                    = timers (host s)
                      ++ [mkTimer (nextTimer (host s)) ws (__expires (svc s) * 60000)]).
  { subst s1. cbn [host].
    match goal with
    | |- context [sinkEffect ?o ?st ?h] =>
        by destruct (sinkEffect_fields o st h) as (_ & -> & _)
    end. }
  split; [done|]. split; [exact Htimers|].
  split.
  { rewrite Htimers, last_snoc. cbn [fmap option_fmap option_map t_period].
    f_equal. apply effectiveDelay_in_range. exact Hdelay. }
  split; [unfold TIMEOUT_MAX in Hdelay; lia|].
  split.
  { subst s1. cbn [host].
    match goal with
    | |- context [sinkEffect ?o ?st ?h] =>
        destruct (sinkEffect_fields o st h) as (-> & _)
    end.
    cbn. f_equal. f_equal. lia. }
  assert (Hstart : __start (svc s1) = Some (i_time i)) by done.
  clearbody s1. clear Hu Htimers.
  intros es. revert s1 Hstart.
  induction es as [|e es IH]; intros s1 Hstart Hes; [done|].
  cbn in Hes. apply andb_prop in Hes as [He Hes].
  cbn [run fold_left].
  assert (He' : isCommand e = false) by by destruct (isCommand e).
  destruct (step_timers_started e s1 (i_time i) He' Hstart) as (Ht & _).
  rewrite <- Ht. apply IH; [|done].
  apply step_preserves_start; [|done]. by destruct e.
Qed.

Lemma session_start_registers_one_timer_witness :
  __start (svc demoState) = None
  /\ __isIdle (svc demoState) = false
  /\ idleReached (quiet 0) (svc demoState) = false
  /\ 1 <= __expires (svc demoState) * 60000 <= TIMEOUT_MAX
  /\ validDate (OFFSET + i_now (quiet 0) + __expires (svc demoState) * 60000) = true
  /\ timers (host (after (updateStatus "demo" (quiet 0) demoState)))
     = timers (host demoState) ++ [mkTimer (nextTimer (host demoState)) "demo"
                                            (__expires (svc demoState) * 60000)].
Proof.
  do 3 (split; [reflexivity|]).
  assert (Hdelay : 1 <= __expires (svc demoState) * 60000 <= TIMEOUT_MAX)
    by (split; discriminate).
  assert (Hdate : validDate (OFFSET + i_now (quiet 0) + __expires (svc demoState) * 60000)
                  = true) by reflexivity.
  split; [exact Hdelay|]. split; [exact Hdate|].
  apply (proj1 (proj2
    (session_start_registers_one_timer "demo" (quiet 0) demoState eq_refl eq_refl eq_refl
       Hdelay Hdate))).
Defined.

(** *** The activate and deactivate commands *)

Lemma updateStatus_returns (ws : string) (i : Inputs) (s : State) :
  exists r, updateStatus ws i s = (Returned r, after (updateStatus ws i s)).
Proof.
  destruct (resolveEmoji_spec i s) as (em & c & Hr). unfold after.
  destruct (__isIdle (svc s)) eqn:HI.
  { rewrite (updateStatus_while_idle ws i s em c Hr HI). by eexists. }
  destruct (idleReached i (svc s)) eqn:HG.
  { rewrite (updateStatus_goes_idle ws i s em c Hr HG HI). by eexists. }
  destruct (__start (svc s)) as [start|] eqn:HS.
  - rewrite (updateStatus_later_push ws i s em c Hr start HG HI HS). by eexists.
  - rewrite (updateStatus_first_push ws i s em c Hr HG HI HS). by eexists.
Qed.

Lemma activateCmd_spec (t : Z) (i : Inputs) (s : State) (ws : string) :
  workspace_name (host s) = Some ws -> ws <> "" ->
  exists r,
    updateStatus ws i (afterReset t s)
    = (Returned r, after (updateStatus ws i (afterReset t s)))
    /\ activateCmd t i s
       = (Returned tt,
          set_host (with_isActive true)
            (set_host (with_interval r) (after (updateStatus ws i (afterReset t s))))).
Proof.
  intros Hws Hne.
  destruct (updateStatus_returns ws i (afterReset t s)) as (r & Hu).
  exists r. split; [exact Hu|].
  remember (after (updateStatus ws i (afterReset t s))) as sA eqn:HsA. clear HsA.
  unfold activateCmd. unfold bind at 1, get. rewrite Hws. cbn [truthy default id].
  assert (String.eqb ws "" = false) as -> by by apply String.eqb_neq.
  cbn [negb]. unfold resetActivity, bind, modify.
  fold (afterReset t s). rewrite Hu. reflexivity.
Qed.

Lemma setDefault_sent (o : option string) (s : State) :
  setDefault o s = (Returned tt, sentDefault o s).
Proof. rewrite setDefault_spec. unfold sentDefault, defaultStatus. done. Qed.

Lemma deactivate_spec (o : option string) (s : State) :
  deactivate o s
  = (Returned tt,
     if isActive (host s) then cleared s else sentDefault o (cleared s)).
Proof.
  unfold deactivate. unfold bind at 1, get. unfold bind at 1.
  assert (match interval (host s) with
          | Some id => clearInterval id >> modify (set_host (with_interval None))
          | None => ret tt
          end s = (Returned tt, cleared s)) as ->.
  { unfold cleared. by destruct (interval (host s)). }
  unfold bind at 1, get.
  assert (isActive (host (cleared s)) = isActive (host s)) as ->.
  { unfold cleared. by destruct (interval (host s)). }
  destruct (isActive (host s)); cbn [negb]; [done|].
  by rewrite setDefault_sent.
Qed.

Lemma deactivateCmd_spec (o1 o2 : option string) (s : State) :
  deactivateCmd o1 o2 s
  = (Returned tt,
     set_host (with_isActive false)
       (sentDefault o2 (if isActive (host s) then cleared s
                        else sentDefault o1 (cleared s)))).
Proof.
  unfold deactivateCmd. unfold bind at 1. rewrite deactivate_spec.
  unfold bind at 1. rewrite setDefault_sent. reflexivity.
Qed.

(** The activate command when the activation does not find the user idle. *)
Lemma activateCmd_started (t : Z) (i : Inputs) (s : State) (ws : string) :
  workspace_name (host s) = Some ws -> ws <> "" ->
  diffMinutes (i_time i) t < __idleTimeout (svc s) ->
  exists s', activateCmd t i s = (Returned tt, s')
    /\ timers (host s')
       = timers (host s) ++ [mkTimer (nextTimer (host s)) ws (__expires (svc s) * 60000)]
    /\ nextTimer (host s') = S (nextTimer (host s))
    /\ interval (host s') = Some (nextTimer (host s))
    /\ isActive (host s') = true
    /\ workspace_name (host s') = Some ws
    /\ svc s' = with_start (Some (i_time i)) (svc (afterReset t s)).
Proof.
  intros Hws Hne Hidle.
  destruct (activateCmd_spec t i s ws Hws Hne) as (r & Hu & Ha).
  destruct (resolveEmoji_spec i (afterReset t s)) as (em & c & Hr).
  assert (HG : idleReached i (svc (afterReset t s)) = false).
  { unfold idleReached. cbn. lia. }
  pose proof (updateStatus_first_push ws i (afterReset t s) em c Hr HG eq_refl eq_refl) as Hf.
  rewrite Hf in Hu, Ha. unfold after in Hu, Ha. cbn [snd] in Hu, Ha.
  injection Hu as <-.
  eexists. split; [exact Ha|].
  cbn [host set_host with_isActive with_interval timers nextTimer interval isActive
       workspace_name svc].
  match goal with
  | |- context [sinkEffect ?o ?st ?h] =>
      destruct (sinkEffect_fields o st h) as (_ & -> & -> & _)
  end.
  repeat split; try done.
  unfold sinkEffect. by destruct (i_api i).
Qed.

(** X4. The activate command, when it does not find the user idle, always
    registers a new timer and records its handle in [interval]; it cancels
    no timer, so the timers registered before are all still there and the
    handle recorded before is lost. *)
Theorem activate_registers_without_cancelling (t : Z) (i : Inputs) (s : State) (ws : string) :
  workspace_name (host s) = Some ws -> ws <> "" ->
  diffMinutes (i_time i) t < __idleTimeout (svc s) ->
  timers (host (step (Activate t i) s))
  = timers (host s) ++ [mkTimer (nextTimer (host s)) ws (__expires (svc s) * 60000)]
  /\ interval (host (step (Activate t i) s)) = Some (nextTimer (host s))
  /\ isActive (host (step (Activate t i) s)) = true
  /\ __start (svc (step (Activate t i) s)) = Some (i_time i)
  /\ __isIdle (svc (step (Activate t i) s)) = false
  /\ __lastActivity (svc (step (Activate t i) s)) = t.
Proof.
  intros Hws Hne Hidle.
  destruct (activateCmd_started t i s ws Hws Hne Hidle)
    as (s' & Ha & Ht & _ & Hi & Hact & _ & Hsvc).
  cbn [step]. unfold after. rewrite Ha. cbn [snd]. rewrite Hsvc.
  by repeat split.
Qed.

Lemma activate_registers_without_cancelling_witness :
  workspace_name (host demoActive) = Some "demo"
  /\ "demo" <> ""
  /\ diffMinutes (i_time (quiet (minutes 5))) (minutes 5) < __idleTimeout (svc demoActive)
  /\ timers (host (step (Activate (minutes 5) (quiet (minutes 5))) demoActive))
     = timers (host demoActive)
       ++ [mkTimer (nextTimer (host demoActive)) "demo" (__expires (svc demoActive) * 60000)].
Proof.
  split; [reflexivity|]. split; [discriminate|]. split; [reflexivity|].
  apply (proj1 (activate_registers_without_cancelling (minutes 5) (quiet (minutes 5))
                  demoActive "demo" eq_refl ltac:(discriminate) eq_refl)).
Defined.

(** X5. The deactivate command cancels the timer whose handle is in
    [interval] and no other: after two activations in a row the timer of
    the first one is still registered when the command has run, although
    [interval] is empty and [isActive] is false. *)
Theorem deactivate_leaves_earlier_timer (t1 t2 : Z) (i1 i2 : Inputs)
    (o1 o2 : option string) (s : State) (ws : string) :
  workspace_name (host s) = Some ws -> ws <> "" ->
  diffMinutes (i_time i1) t1 < __idleTimeout (svc s) ->
  diffMinutes (i_time i2) t2 < __idleTimeout (svc s) ->
  (mkTimer (nextTimer (host s)) ws (__expires (svc s) * 60000)
    ∈ timers (host (run [Activate t1 i1; Activate t2 i2; Deactivate o1 o2] s)))
  /\ (mkTimer (S (nextTimer (host s))) ws (__expires (svc s) * 60000)
    ∉ timers (host (run [Activate t1 i1; Activate t2 i2; Deactivate o1 o2] s)))
  /\ interval (host (run [Activate t1 i1; Activate t2 i2; Deactivate o1 o2] s)) = None
  /\ isActive (host (run [Activate t1 i1; Activate t2 i2; Deactivate o1 o2] s)) = false.
Proof.
  intros Hws Hne H1 H2.
  destruct (activateCmd_started t1 i1 s ws Hws Hne H1)
    as (s1 & Ha1 & Ht1 & Hn1 & Hi1 & Hact1 & Hws1 & Hsvc1).
  assert (H2' : diffMinutes (i_time i2) t2 < __idleTimeout (svc s1)) by by rewrite Hsvc1.
  destruct (activateCmd_started t2 i2 s1 ws Hws1 Hne H2')
    as (s2 & Ha2 & Ht2 & Hn2 & Hi2 & Hact2 & Hws2 & Hsvc2).
  assert (Hrun : run [Activate t1 i1; Activate t2 i2; Deactivate o1 o2] s
                 = set_host (with_isActive false) (sentDefault o2 (cleared s2))).
  { cbn [run fold_left step]. unfold after. rewrite Ha1. cbn [snd]. rewrite Ha2. cbn [snd].
    rewrite deactivateCmd_spec. cbn [snd]. by rewrite Hact2. }
  rewrite Hrun. clear Hrun.
  assert (Hc : timers (host (cleared s2))
               = filter (fun t => t_id t <> S (nextTimer (host s))) (timers (host s2))
            /\ interval (host (cleared s2)) = None).
  { unfold cleared. rewrite Hi2, Hn1. done. }
  destruct Hc as (Hct & Hci).
  assert (Hsd : timers (host (sentDefault o2 (cleared s2))) = timers (host (cleared s2))
             /\ interval (host (sentDefault o2 (cleared s2))) = interval (host (cleared s2))).
  { unfold sentDefault. destruct (truthy (cfg_default (host (cleared s2)))); [|done].
    cbn [host set_host]. unfold sinkEffect. by destruct o2. }
  destruct Hsd as (Hst & Hsi).
  cbn [host set_host with_isActive timers interval isActive].
  rewrite Hst, Hsi, Hct, Hci, Ht2, Ht1, Hn1, Hsvc1.
  cbn [__expires with_start afterReset set_svc svc with_isIdle with_lastActivity].
  repeat split.
  - apply list_elem_of_filter. split; [cbn; lia|]. set_solver.
  - intros Hin. apply list_elem_of_filter in Hin as (Hid & _). by cbn in Hid.
Qed.

Lemma deactivate_leaves_earlier_timer_witness :
  workspace_name (host demoState) = Some "demo"
  /\ "demo" <> ""
  /\ diffMinutes (i_time (quiet 0)) 0 < __idleTimeout (svc demoState)
  /\ diffMinutes (i_time (quiet (minutes 1))) (minutes 1) < __idleTimeout (svc demoState)
  /\ mkTimer (nextTimer (host demoState)) "demo" (__expires (svc demoState) * 60000)
     ∈ timers (host (run [Activate 0 (quiet 0); Activate (minutes 1) (quiet (minutes 1));
                           Deactivate None None] demoState)).
Proof.
  split; [reflexivity|]. split; [discriminate|]. do 2 (split; [reflexivity|]).
  apply (proj1 (deactivate_leaves_earlier_timer 0 (minutes 1) (quiet 0) (quiet (minutes 1))
                  None None demoState "demo" eq_refl ltac:(discriminate) eq_refl eq_refl)).
Defined.

Lemma sentDefault_fields (o : option string) (s : State) :
  svc (sentDefault o s) = svc s
  /\ timers (host (sentDefault o s)) = timers (host s)
  /\ interval (host (sentDefault o s)) = interval (host s)
  /\ cfg_default (host (sentDefault o s)) = cfg_default (host s)
  /\ defaultStatus (host (sentDefault o s)) = defaultStatus (host s)
  /\ apiCalls (host (sentDefault o s))
     = (if truthy (cfg_default (host s)) then [defaultStatus (host s)] else [])
       ++ apiCalls (host s).
Proof.
  unfold sentDefault. destruct (truthy (cfg_default (host s))); [|done].
  cbn [svc host set_host]. unfold sinkEffect, defaultStatus. by destruct o.
Qed.

Lemma cleared_fields (s : State) :
  svc (cleared s) = svc s
  /\ apiCalls (host (cleared s)) = apiCalls (host s)
  /\ remoteStatus (host (cleared s)) = remoteStatus (host s)
  /\ cfg_default (host (cleared s)) = cfg_default (host s)
  /\ defaultStatus (host (cleared s)) = defaultStatus (host s)
  /\ interval (host (cleared s)) = None
  /\ isActive (host (cleared s)) = isActive (host s).
Proof.
  unfold cleared. destruct (interval (host s)) eqn:Hi; [done|].
  by repeat split.
Qed.

(** X6. The deactivate command leaves the service fields alone and sends
    the default status only when a default message is configured: once
    when [isActive] was true, and twice when it was false, since
    [deactivate()] then sends it as well. *)
Theorem deactivate_command_default_pushes (o1 o2 : option string) (s : State) :
  svc (step (Deactivate o1 o2) s) = svc s
  /\ interval (host (step (Deactivate o1 o2) s)) = None
  /\ isActive (host (step (Deactivate o1 o2) s)) = false
  /\ apiCalls (host (step (Deactivate o1 o2) s))
     = (if truthy (cfg_default (host s))
        then if isActive (host s)
             then [defaultStatus (host s)]
             else [defaultStatus (host s); defaultStatus (host s)]
        else [])
       ++ apiCalls (host s).
Proof.
  cbn [step]. unfold after. rewrite deactivateCmd_spec. cbn [snd svc host set_host].
  destruct (cleared_fields s) as (Hc1 & Hc2 & _ & Hc4 & Hc5 & Hc6 & _).
  destruct (isActive (host s)).
  - destruct (sentDefault_fields o2 (cleared s)) as (H1 & _ & H3 & _ & _ & H6).
    cbn [interval isActive apiCalls with_isActive].
    rewrite H1, H3, H6, Hc1, Hc2, Hc4, Hc5, Hc6.
    by destruct (truthy (cfg_default (host s))).
  - destruct (sentDefault_fields o1 (cleared s)) as (G1 & _ & G3 & G4 & G5 & G6).
    destruct (sentDefault_fields o2 (sentDefault o1 (cleared s))) as (H1 & _ & H3 & _ & _ & H6).
    cbn [interval isActive apiCalls with_isActive].
    rewrite H1, H3, H6, G1, G3, G4, G5, G6, Hc1, Hc2, Hc4, Hc5, Hc6.
    by destruct (truthy (cfg_default (host s))).
Qed.

(** X7. Blacklisting the workspace while the synchroniser is active clears
    the timer recorded in [interval] but sends nothing: the call of
    [deactivate()] still sees [isActive] true, so the remote status is left
    as the last push set it. *)
Theorem blacklisting_active_sends_nothing (o : option string) (s : State) :
  isActive (host s) = true ->
  result (blacklistWorkspace o s) = Returned tt
  /\ apiCalls (host (after (blacklistWorkspace o s))) = apiCalls (host s)
  /\ remoteStatus (host (after (blacklistWorkspace o s))) = remoteStatus (host s)
  /\ svc (after (blacklistWorkspace o s)) = svc s
  /\ interval (host (after (blacklistWorkspace o s))) = None
  /\ isActive (host (after (blacklistWorkspace o s))) = false
  /\ (forall h, interval (host s) = Some h ->
        timers (host (after (blacklistWorkspace o s)))
        = filter (fun t => t_id t <> h) (timers (host s))).
Proof.
  intros Hact.
  assert (Hb : blacklistWorkspace o s
               = (Returned tt, set_host (with_isActive false) (cleared s))).
  { unfold blacklistWorkspace, notAwaited, bind, modify.
    rewrite deactivate_spec, Hact. reflexivity. }
  unfold result, after. rewrite Hb. cbn [fst snd svc host set_host].
  destruct (cleared_fields s) as (Hc1 & Hc2 & Hc3 & _ & _ & Hc6 & _).
  cbn [apiCalls remoteStatus interval isActive timers with_isActive].
  rewrite Hc1, Hc2, Hc3, Hc6. repeat split.
  intros h Hh. unfold cleared. by rewrite Hh.
Qed.

Lemma blacklisting_active_sends_nothing_witness :
  isActive (host demoActive) = true
  /\ apiCalls (host (after (blacklistWorkspace None demoActive))) = apiCalls (host demoActive).
Proof.
  split; [reflexivity|].
  apply (proj1 (proj2 (blacklisting_active_sends_nothing None demoActive eq_refl))).
Defined.

Lemma filter_fresh (l : list Timer) (n : nat) (x : Timer) :
  Forall (fun tm => (t_id tm < n)%nat) l -> t_id x = n ->
  filter (fun tm => t_id tm <> n) (l ++ [x]) = l.
Proof.
  intros Hl Hx. rewrite filter_app.
  assert (filter (fun tm => t_id tm <> n) [x] = []) as ->.
  { rewrite filter_cons_False; [done | by intros H]. }
  rewrite app_nil_r. induction Hl as [|y l Hy Hl IH]; [done|].
  rewrite filter_cons_True by lia. by rewrite IH.
Qed.

(** X8. When every registered timer has a handle below the next handle of
    the runtime, an activation that does not find the user idle followed by
    the deactivate command leaves exactly the timers that were registered
    before the activation. *)
Theorem activate_then_deactivate_restores_timers (t : Z) (i : Inputs)
    (o1 o2 : option string) (s : State) (ws : string) :
  workspace_name (host s) = Some ws -> ws <> "" ->
  diffMinutes (i_time i) t < __idleTimeout (svc s) ->
  Forall (fun tm => (t_id tm < nextTimer (host s))%nat) (timers (host s)) ->
  timers (host (run [Activate t i; Deactivate o1 o2] s)) = timers (host s)
  /\ interval (host (run [Activate t i; Deactivate o1 o2] s)) = None
  /\ isActive (host (run [Activate t i; Deactivate o1 o2] s)) = false.
Proof.
  intros Hws Hne Hidle Hfresh.
  destruct (activateCmd_started t i s ws Hws Hne Hidle)
    as (s1 & Ha1 & Ht1 & Hn1 & Hi1 & Hact1 & Hws1 & Hsvc1).
  assert (Hrun : run [Activate t i; Deactivate o1 o2] s
                 = set_host (with_isActive false) (sentDefault o2 (cleared s1))).
  { cbn [run fold_left step]. unfold after. rewrite Ha1. cbn [snd].
    rewrite deactivateCmd_spec. cbn [snd]. by rewrite Hact1. }
  rewrite Hrun. clear Hrun.
  destruct (sentDefault_fields o2 (cleared s1)) as (_ & H2 & H3 & _).
  destruct (cleared_fields s1) as (_ & _ & _ & _ & _ & Hc6 & _).
  cbn [host set_host with_isActive timers interval isActive].
  rewrite H2, H3, Hc6. repeat split.
  unfold cleared. rewrite Hi1. cbn [host set_host with_interval with_timers timers].
  rewrite Ht1. by apply filter_fresh.
Qed.

Lemma activate_then_deactivate_restores_timers_witness :
  workspace_name (host demoActive) = Some "demo"
  /\ "demo" <> ""
  /\ diffMinutes (i_time (quiet (minutes 5))) (minutes 5) < __idleTimeout (svc demoActive)
  /\ Forall (fun tm => (t_id tm < nextTimer (host demoActive))%nat) (timers (host demoActive))
  /\ timers (host (run [Activate (minutes 5) (quiet (minutes 5)); Deactivate None None]
                       demoActive))
     = timers (host demoActive).
Proof.
  assert (Hf : Forall (fun tm => (t_id tm < nextTimer (host demoActive))%nat)
                      (timers (host demoActive))).
  { repeat constructor. }
  split; [reflexivity|]. split; [discriminate|]. split; [reflexivity|].
  split; [exact Hf|].
  apply (proj1 (activate_then_deactivate_restores_timers (minutes 5) (quiet (minutes 5))
                  None None demoActive "demo" eq_refl ltac:(discriminate) eq_refl Hf)).
Defined.

(** *** Idle at the start, activity, language *)

(** X9. A push that finds the idle threshold reached before any session
    has started sends the idle status, registers no timer and starts no
    session. The first activity event after it (in a named workspace, when
    its own push does not find the user idle) starts the session at that
    push and registers the timer. *)
Theorem idle_at_start_defers_timer (ws : string) (i j : Inputs) (t : Z) (s : State) :
  __start (svc s) = None ->
  __isIdle (svc s) = false ->
  idleReached i (svc s) = true ->
  workspace_name (host s) = Some ws -> ws <> "" ->
  diffMinutes (i_time j) t < __idleTimeout (svc s) ->
  result (updateStatus ws i s) = Returned None
  /\ timers (host (after (updateStatus ws i s))) = timers (host s)
  /\ __start (svc (after (updateStatus ws i s))) = None
  /\ __isIdle (svc (after (updateStatus ws i s))) = true
  /\ timers (host (step (Activity t j) (after (updateStatus ws i s))))
     = timers (host s) ++ [mkTimer (nextTimer (host s)) ws (__expires (svc s) * 60000)]
  /\ __start (svc (step (Activity t j) (after (updateStatus ws i s)))) = Some (i_time j)
  /\ __isIdle (svc (step (Activity t j) (after (updateStatus ws i s)))) = false.
Proof.
  intros HS HI HG Hws Hne Hj.
  destruct (resolveEmoji_spec i s) as (em & c & Hr).
  pose proof (updateStatus_goes_idle ws i s em c Hr HG HI) as Hu.
  assert (Hres : result (updateStatus ws i s) = Returned None)
    by (unfold result; by rewrite Hu).
  assert (Hs : after (updateStatus ws i s)
               = mkState (with_isIdle true (svc s))
                   (sinkEffect (i_api i) (idleStatus (cfg_emojiDefault (host s)) (i_now i))
                      (with_cfg_emoji c (host s))))
    by (unfold after; by rewrite Hu).
  rewrite Hres, Hs. clear Hres Hs Hu.
  set (s1 := mkState _ _).
  assert (Hs1 : timers (host s1) = timers (host s)
                /\ nextTimer (host s1) = nextTimer (host s)
                /\ workspace_name (host s1) = Some ws).
  { subst s1. cbn [host]. unfold sinkEffect. by destruct (i_api i). }
  destruct Hs1 as (Ht1 & Hn1 & Hws1).
  split; [done|]. split; [exact Ht1|]. split; [by subst s1; cbn|]. split; [done|].
  assert (Hstep : step (Activity t j) s1
                  = after (updateStatus ws j
                             (set_svc (with_isIdle false) (set_svc (with_lastActivity t) s1)))).
  { cbn [step]. unfold after at 1. rewrite onActivity_spec. cbn [snd].
    change (__isIdle (svc s1)) with true. cbn iota. rewrite Hws1. cbn [truthy default id].
    assert (String.eqb ws "" = false) as -> by by apply String.eqb_neq.
    done. }
  rewrite Hstep. set (s2 := set_svc _ _).
  destruct (resolveEmoji_spec j s2) as (em2 & c2 & Hr2).
  assert (HG2 : idleReached j (svc s2) = false).
  { subst s2 s1. unfold idleReached. cbn. lia. }
  assert (HS2 : __start (svc s2) = None) by (subst s2 s1; cbn; done).
  pose proof (updateStatus_first_push ws j s2 em2 c2 Hr2 HG2 eq_refl HS2) as Hu2.
  unfold after. rewrite Hu2. cbn [snd svc host].
  match goal with
  | |- context [sinkEffect ?o ?st ?h] =>
      destruct (sinkEffect_fields o st h) as (_ & -> & _)
  end.
  subst s2. cbn [host set_svc timers with_timers with_cfg_emoji nextTimer svc
                 __expires with_isIdle with_lastActivity].
  rewrite Ht1, Hn1. subst s1. by cbn.
Qed.

Lemma idle_at_start_defers_timer_witness :
  __start (svc demoState) = None
  /\ __isIdle (svc demoState) = false
  /\ idleReached (quiet (minutes 20)) (svc demoState) = true
  /\ workspace_name (host demoState) = Some "demo"
  /\ "demo" <> ""
  /\ diffMinutes (i_time (quiet (minutes 30))) (minutes 30) < __idleTimeout (svc demoState)
  /\ timers (host (after (updateStatus "demo" (quiet (minutes 20)) demoState)))
     = timers (host demoState).
Proof.
  do 4 (split; [reflexivity|]). split; [discriminate|]. split; [reflexivity|].
  apply (proj1 (proj2 (idle_at_start_defers_timer "demo" (quiet (minutes 20))
                         (quiet (minutes 30)) (minutes 30) demoState
                         eq_refl eq_refl eq_refl eq_refl ltac:(discriminate) eq_refl))).
Defined.

(** X10. An activity event observed while the user is not idle records its
    instant and does nothing else: no status is sent and no timer is
    touched. A push made less than the idle timeout (of at least one
    minute) after that instant then sends an active status and leaves
    [isIdle] false. *)
Theorem activity_postpones_idle (ws : string) (t : Z) (i j : Inputs) (s : State) :
  __isIdle (svc s) = false ->
  1 <= __idleTimeout (svc s) ->
  i_time j - t < __idleTimeout (svc s) * 60000 ->
  svc (step (Activity t i) s) = with_lastActivity t (svc s)
  /\ host (step (Activity t i) s) = host s
  /\ __isIdle (svc (after (updateStatus ws j (step (Activity t i) s)))) = false
  /\ length (apiCalls (host (after (updateStatus ws j (step (Activity t i) s)))))
     = S (length (apiCalls (host s)))
  /\ message <$> head (apiCalls (host (after (updateStatus ws j (step (Activity t i) s)))))
     <> Some (Some "Idle - Away from keyboard").
Proof.
  intros HI HT Hgap.
  assert (Hstep : step (Activity t i) s = set_svc (with_lastActivity t) s).
  { cbn [step]. unfold after. rewrite onActivity_spec. by rewrite HI. }
  rewrite Hstep. set (s1 := set_svc _ _).
  split; [done|]. split; [done|].
  assert (HG : idleReached j (svc s1) = false).
  { unfold idleReached. subst s1. cbn [svc set_svc with_lastActivity __lastActivity __idleTimeout].
    destruct (diffMinutes (i_time j) t >=? __idleTimeout (svc s)) eqn:Hge; [|done].
    apply Z.geb_le in Hge. apply diffMinutes_le_iff in Hge; [lia | done]. }
  destruct (resolveEmoji_spec j s1) as (em & c & Hr).
  assert (HI1 : __isIdle (svc s1) = false) by done.
  unfold after.
  destruct (__start (svc s1)) as [start|] eqn:HS.
  - rewrite (updateStatus_later_push ws j s1 em c Hr start HG HI1 HS). cbn [snd svc host].
    match goal with
    | |- context [sinkEffect ?o ?st ?h] =>
        destruct (sinkEffect_fields o st h) as (-> & _)
    end.
    repeat split; [done|]. cbn. unfold activeMessage. intros [=].
  - rewrite (updateStatus_first_push ws j s1 em c Hr HG HI1 HS). cbn [snd svc host].
    match goal with
    | |- context [sinkEffect ?o ?st ?h] =>
        destruct (sinkEffect_fields o st h) as (-> & _)
    end.
    repeat split; [done|]. cbn. unfold activeMessage. intros [=].
Qed.

Lemma activity_postpones_idle_witness :
  __isIdle (svc demoActive) = false
  /\ 1 <= __idleTimeout (svc demoActive)
  /\ i_time (quiet (minutes 24)) - minutes 10 < __idleTimeout (svc demoActive) * 60000
  /\ __isIdle (svc (after (updateStatus "demo" (quiet (minutes 24))
                     (step (Activity (minutes 10) (quiet (minutes 10))) demoActive)))) = false.
Proof.
  split; [reflexivity|]. split; [vm_compute; discriminate|]. split; [reflexivity|].
  apply (proj1 (proj2 (proj2
    (activity_postpones_idle "demo" (minutes 10) (quiet (minutes 10)) (quiet (minutes 24))
       demoActive eq_refl ltac:(vm_compute; discriminate) eq_refl)))).
Defined.

Lemma diffText_not_empty (n : Z) :
  (0 <? Z.of_nat (String.length (diffText n))) = true.
Proof.
  assert (H : forall c x, (0 <? Z.of_nat (String.length (String c x))) = true).
  { intros c x. change (String.length (String c x)) with (S (String.length x)).
    apply Z.ltb_lt. lia. }
  unfold diffText. destruct (n >? 60); apply H.
Qed.

Lemma updateStatus_language (ws : string) (i : Inputs) (s : State) :
  __currentLanguage (svc (after (updateStatus ws i s))) = __currentLanguage (svc s).
Proof.
  destruct (resolveEmoji_spec i s) as (em & c & Hr). unfold after.
  destruct (__isIdle (svc s)) eqn:HI.
  { by rewrite (updateStatus_while_idle ws i s em c Hr HI). }
  destruct (idleReached i (svc s)) eqn:HG.
  { by rewrite (updateStatus_goes_idle ws i s em c Hr HG HI). }
  destruct (__start (svc s)) as [start|] eqn:HS.
  - by rewrite (updateStatus_later_push ws i s em c Hr start HG HI HS).
  - by rewrite (updateStatus_first_push ws i s em c Hr HG HI HS).
Qed.

Lemma step_language (e : Event) (s : State) :
  isSave e = false ->
  __currentLanguage (svc (step e s)) = __currentLanguage (svc s).
Proof.
  intros He. destruct e as [id i|t i|l t i|t i|o1 o2]; try discriminate He; cbn [step].
  - destruct (findTimer id (timers (host s))) as [tm|]; [|done].
    unfold notAwaited, after at 1. cbn [snd]. apply updateStatus_language.
  - unfold after at 1. rewrite onActivity_spec. cbn [snd].
    destruct (__isIdle (svc s)); [|done].
    destruct (truthy (workspace_name (host s))); [|done].
    by rewrite updateStatus_language.
  - unfold activateCmd, after at 1. unfold bind at 1, get.
    destruct (truthy (workspace_name (host s))); [|done].
    unfold bind at 1. unfold resetActivity at 1, bind at 1, modify at 1.
    unfold bind at 1, modify at 1. unfold modify at 1. fold (afterReset t s).
    unfold bind at 1.
    destruct (updateStatus_returns (default "" (workspace_name (host s))) i (afterReset t s))
      as (r & ->).
    unfold bind, modify. cbn [snd svc set_host]. by rewrite updateStatus_language.
  - by rewrite deactivateCmd_svc.
Qed.

(** X11. The language of a saved document stays the current language
    through every later event that is not a save, whatever it is; and the
    status sent by a push of a running session, made after the save while
    the user is not idle, names it: "Working on W in L for (...)". *)
Theorem saved_language_stays (ws l : string) (t t0 : Z) (i j : Inputs) (s : State) :
  l <> "" ->
  __isIdle (svc s) = false ->
  __start (svc s) = Some t0 ->
  diffMinutes (i_time j) t < __idleTimeout (svc s) ->
  (forall es, forallb (fun e => negb (isSave e)) es = true ->
     __currentLanguage (svc (run es (step (Save l t i) s))) = Some l)
  /\ message <$> head (apiCalls (host (after (updateStatus ws j (step (Save l t i) s)))))
     = Some (Some ("Working on " +:+ ws +:+ " in " +:+ l +:+ " for "
                     +:+ diffText (diffMinutes (i_time j) t0))).
Proof.
  intros Hl HI HS Hidle.
  assert (Hstep : step (Save l t i) s
                  = set_svc (with_lastActivity t) (set_svc (with_currentLanguage (Some l)) s)).
  { cbn [step]. unfold onSave, after. unfold bind at 1, modify.
    rewrite onActivity_spec. cbn [snd svc set_svc with_currentLanguage __isIdle].
    by rewrite HI. }
  rewrite Hstep. set (s1 := set_svc _ _). split.
  - intros es. assert (H1 : __currentLanguage (svc s1) = Some l) by done.
    clearbody s1. revert s1 H1.
    induction es as [|e es IH]; intros s1 H1 Hes; [done|].
    cbn in Hes. apply andb_prop in Hes as [He Hes].
    cbn [run fold_left]. apply IH; [|done].
    rewrite step_language; [done|]. by destruct (isSave e).
  - destruct (resolveEmoji_spec j s1) as (em & c & Hr).
    assert (HG : idleReached j (svc s1) = false).
    { unfold idleReached. subst s1. cbn. lia. }
    pose proof (updateStatus_later_push ws j s1 em c Hr t0 HG HI HS) as Hu.
    unfold after. rewrite Hu. cbn [snd host].
    match goal with
    | |- context [sinkEffect ?o ?st ?h] =>
        destruct (sinkEffect_fields o st h) as (-> & _)
    end.
    subst s1. cbn [head fmap option_fmap option_map message activeStatus svc set_svc
                   with_lastActivity with_currentLanguage __currentLanguage].
    unfold activeMessage. rewrite diffText_not_empty. cbn [truthy default id].
    assert (String.eqb l "" = false) as -> by by apply String.eqb_neq.
    cbn [negb]. rewrite !append_assoc. reflexivity.
Qed.

Lemma saved_language_stays_witness :
  "typescript" <> ""
  /\ __isIdle (svc demoActive) = false
  /\ __start (svc demoActive) = Some 0
  /\ diffMinutes (i_time (quiet (minutes 3))) (minutes 2) < __idleTimeout (svc demoActive)
  /\ message <$> head (apiCalls (host (after (updateStatus "demo" (quiet (minutes 3))
                 (step (Save "typescript" (minutes 2) (quiet (minutes 2))) demoActive)))))
     = Some (Some ("Working on " +:+ "demo" +:+ " in " +:+ "typescript" +:+ " for "
                     +:+ diffText (diffMinutes (i_time (quiet (minutes 3))) 0))).
Proof.
  split; [discriminate|]. do 3 (split; [reflexivity|]).
  apply (proj2 (saved_language_stays "demo" "typescript" (minutes 2) 0
                  (quiet (minutes 2)) (quiet (minutes 3)) demoActive
                  ltac:(discriminate) eq_refl eq_refl eq_refl)).
Defined.

(** * Further properties of the emoji catalog *)

(** [cacheEmojis] with a context, case by case. *)
Lemma cacheEmojis_spec (i : LoadInputs) (items : list EmojiCacheItem) (s : State) :
  __context (svc s) = true ->
  cacheEmojis i items s
  = (Returned tt,
     match l_write1 i, l_write2 i with
     | Some e, _ =>
         set_host (fun h => with_console (("Failed to cache emojis: " +:+ e) :: console h) h) s
     | None, Some e =>
         set_host (fun h => with_console (("Failed to cache emojis: " +:+ e) :: console h) h)
           (set_host (with_gs_emojiCache (Some items)) s)
     | None, None =>
         set_host (with_gs_emojiCacheTimestamp (Some (l_writeNow i)))
           (set_host (with_gs_emojiCache (Some items)) s)
     end).
Proof.
  intros Hctx. unfold cacheEmojis. unfold bind at 1, get. rewrite Hctx. cbn [negb].
  unfold tryCatch, bind, throw, consoleError, modify.
  by destruct (l_write1 i), (l_write2 i).
Qed.

(** X12. What [cacheEmojis] stores is what [getCachedEmojis] gives back:
    after a successful write at a non-zero instant, a service with a
    context that reads the store gets exactly the stored entries, in the
    same order, as long as the record is at most 24 hours old, and [null]
    once it is older. *)
Theorem cache_round_trip (i i' : LoadInputs) (items : list EmojiCacheItem)
    (s : State) (c2 : Service) :
  __context (svc s) = true ->
  l_write1 i = None -> l_write2 i = None -> l_writeNow i <> 0 ->
  __context c2 = true -> l_read i' = None ->
  result (getCachedEmojis i' (mkState c2 (host (after (cacheEmojis i items s)))))
  = Returned (if l_now i' - l_writeNow i >? 24 * 60 * 60 * 1000 then None else Some items).
Proof.
  intros Hctx Hw1 Hw2 Hnz Hctx2 Hread.
  unfold after. rewrite (cacheEmojis_spec i items s Hctx), Hw1, Hw2. cbn [snd].
  unfold result.
  match goal with
  | |- context [getCachedEmojis i' ?st] =>
      rewrite (getCachedEmojis_record i' st items (l_writeNow i) Hctx2 Hread eq_refl eq_refl Hnz)
  end.
  done.
Qed.

Lemma cache_round_trip_witness :
  __context (svc demoState) = true
  /\ l_write1 (loadAt 1000 (FetchRejected "x")) = None
  /\ l_write2 (loadAt 1000 (FetchRejected "x")) = None
  /\ l_writeNow (loadAt 1000 (FetchRejected "x")) <> 0
  /\ __context (newService 1 15 true 2000) = true
  /\ l_read (loadAt 3000 (FetchRejected "x")) = None
  /\ result (getCachedEmojis (loadAt 3000 (FetchRejected "x"))
               (mkState (newService 1 15 true 2000)
                  (host (after (cacheEmojis (loadAt 1000 (FetchRejected "x"))
                                  (map entryOf fallbackEmojis) demoState)))))
     = Returned (if l_now (loadAt 3000 (FetchRejected "x"))
                    - l_writeNow (loadAt 1000 (FetchRejected "x")) >? 24 * 60 * 60 * 1000
                 then None else Some (map entryOf fallbackEmojis)).
Proof.
  do 3 (split; [reflexivity|]). split; [discriminate|]. do 2 (split; [reflexivity|]).
  apply (cache_round_trip (loadAt 1000 (FetchRejected "x")) (loadAt 3000 (FetchRejected "x"))
           (map entryOf fallbackEmojis) demoState (newService 1 15 true 2000)
           eq_refl eq_refl eq_refl ltac:(discriminate) eq_refl eq_refl).
Defined.

(** X13. [cacheEmojis] never raises, and a rejected write is only logged.
    When the first write is rejected the store is left as it was. When the
    first write succeeds and the second is rejected, the store holds the
    new entries together with the timestamp it had before. *)
Theorem cache_write_failures (i : LoadInputs) (items : list EmojiCacheItem) (s : State) :
  __context (svc s) = true ->
  result (cacheEmojis i items s) = Returned tt
  /\ svc (after (cacheEmojis i items s)) = svc s
  /\ (forall e, l_write1 i = Some e ->
        gs_emojiCache (host (after (cacheEmojis i items s))) = gs_emojiCache (host s)
        /\ gs_emojiCacheTimestamp (host (after (cacheEmojis i items s)))
           = gs_emojiCacheTimestamp (host s)
        /\ console (host (after (cacheEmojis i items s)))
           = ("Failed to cache emojis: " +:+ e) :: console (host s))
  /\ (forall e, l_write1 i = None -> l_write2 i = Some e ->
        gs_emojiCache (host (after (cacheEmojis i items s))) = Some items
        /\ gs_emojiCacheTimestamp (host (after (cacheEmojis i items s)))
           = gs_emojiCacheTimestamp (host s)
        /\ console (host (after (cacheEmojis i items s)))
           = ("Failed to cache emojis: " +:+ e) :: console (host s)).
Proof.
  intros Hctx. unfold result, after. rewrite (cacheEmojis_spec i items s Hctx).
  cbn [fst snd]. split; [done|]. split.
  { by destruct (l_write1 i), (l_write2 i). }
  split.
  - intros e ->. done.
  - intros e -> ->. done.
Qed.

Lemma cache_write_failures_witness :
  __context (svc cachedState) = true
  /\ gs_emojiCacheTimestamp
       (host (after (cacheEmojis (mkLoadInputs None 9000 (FetchRejected "x") None (Some "quota") 9000)
                       (map entryOf fallbackEmojis) cachedState)))
     = gs_emojiCacheTimestamp (host cachedState).
Proof.
  split; [reflexivity|].
  apply (proj1 (proj2 (proj2 (proj2 (proj2
    (cache_write_failures (mkLoadInputs None 9000 (FetchRejected "x") None (Some "quota") 9000)
       (map entryOf fallbackEmojis) cachedState eq_refl))) "quota" eq_refl eq_refl))).
Defined.

(** X14. A service built without an extension context never reads or
    writes the store: every load goes to the remote directory, whatever
    record the store holds, and leaves the store as it was. *)
Theorem no_context_always_fetches (i : LoadInputs) (s : State) :
  __context (svc s) = false ->
  result (loadEmojis i s) = Returned tt
  /\ fetches (host (after (loadEmojis i s))) = S (fetches (host s))
  /\ gs_emojiCache (host (after (loadEmojis i s))) = gs_emojiCache (host s)
  /\ gs_emojiCacheTimestamp (host (after (loadEmojis i s))) = gs_emojiCacheTimestamp (host s).
Proof.
  intros Hctx.
  assert (Hc : getCachedEmojis i s = (Returned None, s)).
  { unfold getCachedEmojis. unfold bind at 1, get. by rewrite Hctx. }
  assert (Hcache : forall items st, __context (svc st) = false ->
            cacheEmojis i items st = (Returned tt, st)).
  { intros items st Hst. unfold cacheEmojis. unfold bind at 1, get. by rewrite Hst. }
  assert (Hl : exists s', loadEmojis i s = (Returned tt, s')
                 /\ fetches (host s') = S (fetches (host s))
                 /\ gs_emojiCache (host s') = gs_emojiCache (host s)
                 /\ gs_emojiCacheTimestamp (host s') = gs_emojiCacheTimestamp (host s)).
  { unfold loadEmojis, tryCatch. unfold bind at 1. rewrite Hc.
    unfold fetchEmojis, doFetch. unfold bind at 1. unfold bind at 1, modify.
    destruct (l_fetch i) as [err|[|] [body|]]; unfold throw, ret; cbn [fst snd].
    - by eexists.
    - unfold bind at 1. unfold bind at 1. unfold bind at 1, get.
      rewrite Hcache by done. by eexists.
    - by eexists.
    - by eexists.
    - by eexists. }
  destruct Hl as (s' & Hl & H1 & H2 & H3).
  unfold result, after. rewrite Hl. done.
Qed.

Lemma no_context_always_fetches_witness :
  __context (svc (mkState (newService 1 15 false 0) (host cachedState))) = false
  /\ fetches (host (after (loadEmojis (loadAt 2000 (FetchRejected "offline"))
                             (mkState (newService 1 15 false 0) (host cachedState)))))
     = S (fetches (host (mkState (newService 1 15 false 0) (host cachedState)))).
Proof.
  split; [reflexivity|].
  apply (proj1 (proj2 (no_context_always_fetches (loadAt 2000 (FetchRejected "offline"))
                         (mkState (newService 1 15 false 0) (host cachedState)) eq_refl))).
Defined.

(** *** The dictionary and the catalog *)

Lemma loadEmojis_svc (i : LoadInputs) (s s1 : State) (r : option (list EmojiCacheItem)) :
  getCachedEmojis i s = (Returned r, s1) ->
  svc (after (loadEmojis i s)) = loadedService r (l_fetch i) (svc s).
Proof.
  intros Hc. destruct (getCachedEmojis_result i s s1 r Hc) as (Hsvc & _ & _).
  unfold after, loadEmojis, tryCatch. unfold bind at 1. rewrite Hc.
  destruct r as [[|e es]|].
  2: { unfold bind, modify. cbn. by rewrite Hsvc. }
  all: unfold fetchEmojis, doFetch; unfold bind at 1; unfold bind at 1, modify.
  all: destruct (l_fetch i) as [err|[|] [body|]]; unfold throw, ret; cbn [fst snd].
  all: try (cbn; by rewrite Hsvc).
  all: unfold bind at 1; unfold bind at 1; unfold bind at 1, get.
  all: cbn [set_svc set_host svc host with_emojiCache __emojiCache].
  all: match goal with
       | |- context [cacheEmojis ?ii ?it ?st] =>
           destruct (cacheEmojis_returns ii it st) as (s' & -> & Hs' & _)
       end.
  all: cbn [snd]; rewrite Hs'; cbn; by rewrite Hsvc.
Qed.

Lemma entry_eta (e : EmojiCacheItem) : mkItem (name e) (url e) = e.
Proof. by destruct e. Qed.

Lemma fold_insert_lookup (items : list EmojiCacheItem) (m : gmap string string)
    (n u : string) :
  NoDup (map name items) ->
  fold_left (fun m x => <[name x := url x]> m) items m !! n = Some u
  <-> (mkItem n u ∈ items) \/ ((n ∉ map name items) /\ m !! n = Some u).
Proof.
  revert m. induction items as [|x xs IH]; intros m Hnd.
  - cbn. split.
    + intros H. right. split; [apply not_elem_of_nil | done].
    + intros [H|[_ H]]; [by apply elem_of_nil in H | done].
  - cbn [fold_left map]. apply NoDup_cons in Hnd as (Hx & Hnd). rewrite (IH _ Hnd).
    assert (Hnamed : forall v, mkItem (name x) v ∈ xs -> False).
    { intros v Hin. apply Hx. apply list_elem_of_fmap. by exists (mkItem (name x) v). }
    destruct (decide (n = name x)) as [->|Hne].
    + rewrite lookup_insert_eq. split.
      * intros [Hin | [_ [= <-]]]; [by destruct (Hnamed u)|].
        left. rewrite entry_eta. by apply elem_of_cons; left.
      * intros [Hin | [Hnot _]].
        -- apply elem_of_cons in Hin as [Heq | Hin]; [|by destruct (Hnamed u)].
           right. split; [done|]. by rewrite <- Heq.
        -- exfalso. apply Hnot. by apply elem_of_cons; left.
    + rewrite lookup_insert_ne by done. split.
      * intros [Hin | [Hnot Hm]]; [left; by apply elem_of_cons; right|].
        right. split; [|done]. by apply not_elem_of_cons.
      * intros [Hin | [Hnot Hm]].
        -- left. apply elem_of_cons in Hin as [Heq | Hin]; [|done].
           exfalso. apply Hne. by rewrite <- Heq.
        -- right. split; [|done]. by apply not_elem_of_cons in Hnot as [_ ?].
Qed.

Lemma list_to_map_entries (body : list (string * string)) (n u : string) :
  NoDup (map fst body) ->
  (list_to_map body : gmap string string) !! n = Some u
  <-> mkItem n u ∈ map entryOf body.
Proof.
  intros Hnd. rewrite <- elem_of_list_to_map by done.
  rewrite list_elem_of_fmap. split.
  - intros Hin. by exists (n, u).
  - intros ([n' u'] & [= -> ->] & Hin). done.
Qed.

(** X15. A load keeps the dictionary [__emojis] and the catalog in
    agreement: when the names of the stored record and the keys of the
    fetched object are pairwise distinct, after the load a name maps to a
    url in the dictionary exactly when the catalog has the entry with that
    name and url; this on every path (record, fetch, fallback, HTTP
    error). The stored record is taken without an entry named
    ["__proto__"], the one name that an assignment [obj[name] = url] does
    not turn into a key of the object. *)
Theorem load_keeps_dictionary_in_step (i : LoadInputs) (s : State) :
  agrees (svc s) ->
  (forall items, gs_emojiCache (host s) = Some items -> NoDup (map name items)) ->
  (forall items, gs_emojiCache (host s) = Some items -> "__proto__" ∉ map name items) ->
  (forall ok body, l_fetch i = FetchResponse ok (Some body) -> NoDup (map fst body)) ->
  agrees (svc (after (loadEmojis i s))).
Proof.
  intros H0 Hstore _ Hfetch.
  destruct (getCachedEmojis_returns i s) as (r & l & Hc).
  destruct (getCachedEmojis_result i s _ r Hc) as (_ & _ & Hr).
  rewrite (loadEmojis_svc i s _ r Hc).
  assert (Hmiss : agrees
            match l_fetch i with
            | FetchRejected _ | FetchResponse true None =>
                with_emojiCache (map entryOf fallbackEmojis)
                                (with_emojis (list_to_map fallbackEmojis) (svc s))
            | FetchResponse true (Some body) =>
                with_emojiCache (map entryOf body) (with_emojis (list_to_map body) (svc s))
            | FetchResponse false _ => svc s
            end).
  { assert (Hfb : NoDup (map fst fallbackEmojis)).
    { apply (bool_decide_unpack _). by vm_compute. }
    destruct (l_fetch i) as [err|[|] [body|]] eqn:Hf; try done.
    - intros n u. cbn [__emojis __emojiCache with_emojis with_emojiCache].
      by apply list_to_map_entries.
    - intros n u. cbn [__emojis __emojiCache with_emojis with_emojiCache].
      apply list_to_map_entries. by apply (Hfetch true).
    - intros n u. cbn [__emojis __emojiCache with_emojis with_emojiCache].
      by apply list_to_map_entries. }
  unfold loadedService. destruct r as [[|e es]|]; try exact Hmiss.
  destruct Hr as [Hr|Hr]; [discriminate|].
  intros n u. cbn [__emojis __emojiCache with_emojis with_emojiCache].
  rewrite fold_insert_lookup by (apply Hstore; by rewrite <- Hr).
  rewrite lookup_empty. split; [intros [H|[_ H]]; done | by left].
Qed.

Lemma load_keeps_dictionary_in_step_witness :
  agrees (svc demoState)
  /\ (forall items, gs_emojiCache (host demoState) = Some items -> NoDup (map name items))
  /\ (forall items, gs_emojiCache (host demoState) = Some items ->
        "__proto__" ∉ map name items)
  /\ (forall ok body,
        l_fetch (loadAt 1000 (FetchResponse true (Some demoDirectory)))
        = FetchResponse ok (Some body) -> NoDup (map fst body))
  /\ agrees (svc (after (loadEmojis (loadAt 1000 (FetchResponse true (Some demoDirectory)))
                           demoState))).
Proof.
  assert (H0 : agrees (svc demoState)).
  { intros n u. cbn. rewrite lookup_empty. split; [done | intros H; by apply elem_of_nil in H]. }
  assert (H1 : forall items, gs_emojiCache (host demoState) = Some items -> NoDup (map name items)).
  { intros items H. discriminate H. }
  assert (H2 : forall ok body,
        l_fetch (loadAt 1000 (FetchResponse true (Some demoDirectory)))
        = FetchResponse ok (Some body) -> NoDup (map fst body)).
  { intros ok body [= <- <-]. cbn. apply NoDup_cons. split; [apply not_elem_of_nil|].
    apply NoDup_nil_2. }
  assert (H3 : forall items, gs_emojiCache (host demoState) = Some items ->
                 "__proto__" ∉ map name items).
  { intros items H. discriminate H. }
  split; [exact H0|]. split; [exact H1|]. split; [exact H3|]. split; [exact H2|].
  apply (load_keeps_dictionary_in_step
           (loadAt 1000 (FetchResponse true (Some demoDirectory))) demoState H0 H1 H3 H2).
Defined.

(** X16. A store that cannot be read counts as a cache miss: the error is
    written to the console, the load goes on to the remote directory, and
    the catalog is the one the fetch (or the fallback) gives, as if there
    were no record. *)
Theorem store_read_failure_is_a_miss (i : LoadInputs) (s : State) (e : string) :
  __context (svc s) = true ->
  l_read i = Some e ->
  result (loadEmojis i s) = Returned tt
  /\ fetches (host (after (loadEmojis i s))) = S (fetches (host s))
  /\ svc (after (loadEmojis i s)) = loadedService None (l_fetch i) (svc s)
  /\ ("Failed to load cached emojis: " +:+ e) ∈ console (host (after (loadEmojis i s))).
Proof.
  intros Hctx Hread.
  assert (Hc : getCachedEmojis i s
               = (Returned None,
                  set_host (fun h => with_console
                              (("Failed to load cached emojis: " +:+ e) :: console h) h) s)).
  { unfold getCachedEmojis. unfold bind at 1, get. rewrite Hctx. cbn [negb].
    unfold tryCatch, bind, throw, ret, consoleError, modify. by rewrite Hread. }
  destruct (loadEmojis_miss i s _ None Hc eq_refl) as (s' & Hl & Hf & _).
  pose proof (loadEmojis_svc i s _ None Hc) as Hsvc.
  split; [unfold result; by rewrite Hl|]. split; [unfold after; by rewrite Hl|].
  split; [exact Hsvc|].
  unfold after, loadEmojis, tryCatch. unfold bind at 1. rewrite Hc.
  unfold fetchEmojis, doFetch, useFallback, cacheEmojis, tryCatch, bind, modify, get, ret,
    throw, consoleError.
  destruct (l_fetch i) as [err|[|] [body|]];
    cbn [svc host set_host set_svc with_console console with_fetches fst snd
         with_emojis with_emojiCache __context];
    rewrite ?Hctx; cbn [negb].
  - apply elem_of_cons; right. by apply elem_of_cons; left.
  - destruct (l_write1 i), (l_write2 i);
      cbn [fst snd host set_host set_svc console with_console with_gs_emojiCache
           with_gs_emojiCacheTimestamp];
      try (by apply elem_of_cons; left);
      apply elem_of_cons; right; by apply elem_of_cons; left.
  - apply elem_of_cons; right. by apply elem_of_cons; left.
  - by apply elem_of_cons; left.
  - by apply elem_of_cons; left.
Qed.

Lemma store_read_failure_is_a_miss_witness :
  __context (svc cachedState) = true
  /\ l_read (mkLoadInputs (Some "EIO") 2000 (FetchRejected "offline") None None 2000)
     = Some "EIO"
  /\ fetches (host (after (loadEmojis
               (mkLoadInputs (Some "EIO") 2000 (FetchRejected "offline") None None 2000)
               cachedState)))
     = S (fetches (host cachedState)).
Proof.
  do 2 (split; [reflexivity|]).
  apply (proj1 (proj2 (store_read_failure_is_a_miss
                         (mkLoadInputs (Some "EIO") 2000 (FetchRejected "offline") None None 2000)
                         cachedState "EIO" eq_refl eq_refl))).
Defined.

(** * Properties of the emoji preview *)

Lemma append_cons (c : Ascii.ascii) (a b : string) :
  String c a +:+ b = String c (a +:+ b).
Proof. reflexivity. Qed.

Lemma split_not_nil (sep : Ascii.ascii) (s : string) : split sep s <> [].
Proof.
  induction s as [|c s IH]; cbn [split]; [done|].
  destruct (Ascii.eqb c sep); [done|]. by destruct (split sep s).
Qed.

(** Splitting at a separator that joins two strings. *)
Lemma split_app (sep : Ascii.ascii) (a b : string) :
  split sep (a +:+ String sep b) = split sep a ++ split sep b.
Proof.
  induction a as [|c a IH].
  - change ("" +:+ String sep b) with (String sep b). cbn [split].
    by rewrite Ascii.eqb_refl.
  - rewrite append_cons. cbn [split]. rewrite IH.
    destruct (Ascii.eqb c sep); [done|].
    pose proof (split_not_nil sep a) as Hne.
    by destruct (split sep a).
Qed.

Lemma codePointsOf_app (a b : string) :
  codePointsOf (a +:+ String hyphen b) = codePointsOf a ++ codePointsOf b.
Proof. unfold codePointsOf. by rewrite split_app, filter_app. Qed.

Lemma joinCodePoints_app (l1 l2 : list string) :
  joinCodePoints (l1 ++ l2)
  = match joinCodePoints l1, joinCodePoints l2 with
    | Some u1, Some u2 => Some (u1 ++ u2)
    | _, _ => None
    end.
Proof.
  induction l1 as [|c l1 IH]; cbn [app joinCodePoints].
  - by destruct (joinCodePoints l2).
  - destruct (parseInt16 c) as [n|]; [|done].
    rewrite IH. destruct (fromCodePoint n) as [u|]; [|done].
    destruct (joinCodePoints l1), (joinCodePoints l2); try done.
    by rewrite app_assoc.
Qed.

(** [getEmojiPreview] by the capture of its URL. *)
Lemma getEmojiPreview_capture (name url capture : string) (s : State) :
  matchUnicode url = Some capture ->
  getEmojiPreview name url s
  = match joinCodePoints (codePointsOf capture) with
    | Some units => (Returned (Glyph units), s)
    | None =>
        (Returned (fallbackPreview name),
         set_host (fun h => with_console
           (("Failed to parse Unicode from URL for " +:+ name +:+ ": "
               +:+ "RangeError: Invalid code point") :: console h) h) s)
    end.
Proof.
  intros Hm. unfold getEmojiPreview. rewrite Hm.
  unfold tryCatch, bind, throw, ret, consoleError, modify.
  by destruct (joinCodePoints (codePointsOf capture)).
Qed.

(** X17. The zero-width joiner is dropped only in its lowercase spelling.
    When the parts [a] and [b] of a capture give the code units [ua] and
    [ub], the capture [a-200d-b] gives [ua] followed by [ub], exactly as
    [a-b] does, while [a-200D-b] gives them with the joiner U+200D in
    between. *)
Theorem joiner_dropped_in_lowercase_only (name url1 url2 url3 a b : string)
    (ua ub : list N) (s : State) :
  matchUnicode url1 = Some (a +:+ "-200d-" +:+ b) ->
  matchUnicode url2 = Some (a +:+ "-" +:+ b) ->
  matchUnicode url3 = Some (a +:+ "-200D-" +:+ b) ->
  joinCodePoints (codePointsOf a) = Some ua ->
  joinCodePoints (codePointsOf b) = Some ub ->
  getEmojiPreview name url1 s = (Returned (Glyph (ua ++ ub)), s)
  /\ getEmojiPreview name url2 s = (Returned (Glyph (ua ++ ub)), s)
  /\ getEmojiPreview name url3 s = (Returned (Glyph (ua ++ [8205%N] ++ ub)), s).
Proof.
  intros H1 H2 H3 Ha Hb.
  rewrite (getEmojiPreview_capture name url1 _ s H1),
          (getEmojiPreview_capture name url2 _ s H2),
          (getEmojiPreview_capture name url3 _ s H3).
  change (a +:+ "-200d-" +:+ b) with (a +:+ String hyphen ("200d" +:+ String hyphen b)).
  change (a +:+ "-" +:+ b) with (a +:+ String hyphen b).
  change (a +:+ "-200D-" +:+ b) with (a +:+ String hyphen ("200D" +:+ String hyphen b)).
  rewrite !codePointsOf_app, !joinCodePoints_app, Ha, Hb.
  repeat split; reflexivity.
Qed.

Lemma joiner_dropped_in_lowercase_only_witness :
  matchUnicode "https://x/unicode/1f468-200d-1f469.png" = Some ("1f468" +:+ "-200d-" +:+ "1f469")
  /\ matchUnicode "https://x/unicode/1f468-1f469.png" = Some ("1f468" +:+ "-" +:+ "1f469")
  /\ matchUnicode "https://x/unicode/1f468-200D-1f469.png" = Some ("1f468" +:+ "-200D-" +:+ "1f469")
  /\ joinCodePoints (codePointsOf "1f468") = Some [55357%N; 56424%N]
  /\ joinCodePoints (codePointsOf "1f469") = Some [55357%N; 56425%N]
  /\ getEmojiPreview "couple" "https://x/unicode/1f468-200d-1f469.png" demoState
     = (Returned (Glyph ([55357%N; 56424%N] ++ [55357%N; 56425%N])), demoState).
Proof.
  do 5 (split; [reflexivity|]).
  apply (proj1 (joiner_dropped_in_lowercase_only "couple"
                  "https://x/unicode/1f468-200d-1f469.png"
                  "https://x/unicode/1f468-1f469.png"
                  "https://x/unicode/1f468-200D-1f469.png"
                  "1f468" "1f469" [55357%N; 56424%N] [55357%N; 56425%N] demoState
                  eq_refl eq_refl eq_refl eq_refl eq_refl)).
Defined.

(** *** Matching a URL of the image directory *)

Lemma takeClass_app (cap : string) (c : Ascii.ascii) (rest : string) :
  allChars isClassChar cap = true -> isClassChar c = false ->
  takeClass (cap +:+ String c rest) = (cap, String c rest).
Proof.
  intros Hcap Hc. induction cap as [|x cap IH].
  - change ("" +:+ String c rest) with (String c rest). cbn [takeClass]. by rewrite Hc.
  - cbn [allChars] in Hcap. apply andb_prop in Hcap as [Hx Hcap].
    rewrite append_cons. cbn [takeClass]. rewrite Hx, (IH Hcap). reflexivity.
Qed.

Lemma matchUnicode_github (cap post : string) :
  cap <> "" -> allChars isClassChar cap = true ->
  matchUnicode (githubAssets +:+ cap +:+ ".png" +:+ post) = Some cap.
Proof.
  intros Hne Hcap.
  assert (Hhere : matchHere ("/unicode/" +:+ cap +:+ ".png" +:+ post) = Some cap).
  { unfold matchHere.
    change (stripPrefix "/unicode/" ("/unicode/" +:+ cap +:+ ".png" +:+ post))
      with (Some (cap +:+ ".png" +:+ post)).
    change (cap +:+ ".png" +:+ post) with (cap +:+ String (Ascii.ascii_of_N 46) ("png" +:+ post)).
    cbv iota beta. rewrite takeClass_app by done. cbn [fst snd].
    assert (String.eqb cap "" = false) as -> by by apply String.eqb_neq.
    reflexivity. }
  set (rest := cap +:+ ".png" +:+ post) in *.
  change (githubAssets +:+ rest)
    with (String.append "https://github.githubassets.com/images/icons/emoji" ("/unicode/" +:+ rest)).
  set (tail := "/unicode/" +:+ rest) in *.
  assert (Hm : matchUnicode tail = Some cap).
  { subst tail. change ("/unicode/" +:+ rest) with (String (Ascii.ascii_of_N 47) ("unicode/" +:+ rest)).
    cbn [matchUnicode].
    change (String (Ascii.ascii_of_N 47) ("unicode/" +:+ rest)) with ("/unicode/" +:+ rest).
    by rewrite Hhere. }
  clearbody tail. clear Hhere.
  cbv [String.append]. cbn [matchUnicode].
  repeat (match goal with
          | |- context [matchHere (String ?c ?x)] =>
              change (matchHere (String c x)) with (@None string)
          end; cbv iota).
  exact Hm.
Qed.

Lemma allChars_impl (p q : Ascii.ascii -> bool) (s : string) :
  (forall c, p c = true -> q c = true) -> allChars p s = true -> allChars q s = true.
Proof.
  intros Hpq. induction s as [|c s IH]; [done|]. cbn [allChars].
  intros H. apply andb_prop in H as [Hc Hs]. by rewrite (Hpq c Hc), (IH Hs).
Qed.

Lemma split_no_sep (sep : Ascii.ascii) (s : string) :
  allChars (fun c => negb (Ascii.eqb c sep)) s = true -> split sep s = [s].
Proof.
  induction s as [|c s IH]; [done|]. cbn [allChars split].
  intros H. apply andb_prop in H as [Hc Hs]. apply negb_true_iff in Hc.
  by rewrite Hc, (IH Hs).
Qed.

(** X18. For a URL of the image directory whose file name is one
    hexadecimal number (not "200d") of value [n] up to 0x10FFFF, whatever
    follows ".png", the preview is the character of code point [n]: one
    code unit up to 0xFFFF, the surrogate pair of [n] above; nothing is
    logged. *)
Theorem directory_url_gives_code_point (name hex post : string) (n : N) (s : State) :
  hex <> "" -> hex <> "200d" ->
  allChars isHexDigit hex = true ->
  parseInt16 hex = Some n ->
  (n <= 1114111)%N ->
  getEmojiPreview name (githubAssets +:+ hex +:+ ".png" +:+ post) s
  = (Returned (Glyph (if (n <=? 65535)%N then [n]
                      else [(55296 + (n - 65536) / 1024)%N;
                            (56320 + (n - 65536) mod 1024)%N])), s).
Proof.
  intros Hne Hzwj Hhex Hparse Hmax.
  assert (Hclass : allChars isClassChar hex = true).
  { apply (allChars_impl isHexDigit); [|done].
    intros c Hc. unfold isClassChar. by rewrite Hc. }
  rewrite (getEmojiPreview_capture name _ hex s (matchUnicode_github hex post Hne Hclass)).
  assert (Hsplit : split hyphen hex = [hex]).
  { apply split_no_sep. apply (allChars_impl isHexDigit); [|done].
    intros c Hc. apply negb_true_iff. apply not_true_is_false. intros Heq.
    apply Ascii.eqb_eq in Heq. subst c. discriminate Hc. }
  unfold codePointsOf. rewrite Hsplit.
  rewrite filter_cons_True by done. rewrite filter_nil.
  cbn [joinCodePoints]. rewrite Hparse. unfold fromCodePoint.
  destruct (n <=? 65535)%N; [done|].
  assert ((n <=? 1114111)%N = true) as -> by by apply N.leb_le.
  reflexivity.
Qed.

Lemma directory_url_gives_code_point_witness :
  "1f680" <> "" /\ "1f680" <> "200d"
  /\ allChars isHexDigit "1f680" = true
  /\ parseInt16 "1f680" = Some 128640%N
  /\ (128640 <= 1114111)%N
  /\ getEmojiPreview "rocket" (githubAssets +:+ "1f680" +:+ ".png" +:+ "?v8") demoState
     = (Returned (Glyph (if (128640 <=? 65535)%N then [128640%N]
                         else [(55296 + (128640 - 65536) / 1024)%N;
                               (56320 + (128640 - 65536) mod 1024)%N])), demoState).
Proof.
  split; [discriminate|]. split; [discriminate|]. do 2 (split; [reflexivity|]).
  split; [vm_compute; discriminate|].
  apply (directory_url_gives_code_point "rocket" "1f680" "?v8" 128640%N demoState
           ltac:(discriminate) ltac:(discriminate) eq_refl eq_refl ltac:(vm_compute; discriminate)).
Defined.

(** *** When the preview falls back *)

Lemma joinCodePoints_valid (codes : list string) :
  is_Some (joinCodePoints codes) <-> forallb validCode codes = true.
Proof.
  induction codes as [|c codes IH]; cbn [joinCodePoints forallb].
  - split; [done | by eexists].
  - unfold validCode at 1. destruct (parseInt16 c) as [n|].
    2: { split; [by intros [? ?] | done]. }
    unfold fromCodePoint.
    destruct (n <=? 65535)%N eqn:H1.
    + assert ((n <=? 1114111)%N = true) as -> by (apply N.leb_le; apply N.leb_le in H1; lia).
      cbn [andb]. rewrite <- IH.
      destruct (joinCodePoints codes); split; intros [? ?]; try done; by eexists.
    + destruct (n <=? 1114111)%N; cbn [andb].
      * rewrite <- IH.
        destruct (joinCodePoints codes); split; intros [? ?]; try done; by eexists.
      * split; [by intros [? ?] | done].
Qed.

Lemma validCode_empty : validCode "" = false.
Proof. reflexivity. Qed.

(** X19. When the pattern matches, the preview is built from the URL
    exactly when every segment of the capture other than "200d" is a
    hexadecimal number up to 0x10FFFF. Otherwise (in particular when a
    segment is empty: a doubled, leading or trailing hyphen) the error is
    logged, not raised, and the preview is the one the name alone gives. *)
Theorem preview_from_url_iff_valid (name url capture : string) (s : State) :
  matchUnicode url = Some capture ->
  ((exists units, getEmojiPreview name url s = (Returned (Glyph units), s))
     <-> forallb validCode (codePointsOf capture) = true)
  /\ (forallb validCode (codePointsOf capture) = false ->
      result (getEmojiPreview name url s) = Returned (fallbackPreview name)
      /\ console (host (after (getEmojiPreview name url s)))
         = ("Failed to parse Unicode from URL for " +:+ name +:+ ": "
              +:+ "RangeError: Invalid code point") :: console (host s)
      /\ svc (after (getEmojiPreview name url s)) = svc s)
  /\ ("" ∈ split hyphen capture -> forallb validCode (codePointsOf capture) = false).
Proof.
  intros Hm. rewrite (getEmojiPreview_capture name url capture s Hm).
  pose proof (joinCodePoints_valid (codePointsOf capture)) as Hv.
  destruct (joinCodePoints (codePointsOf capture)) as [units|] eqn:Hj.
  - assert (Hall : forallb validCode (codePointsOf capture) = true).
    { apply Hv. by eexists. }
    split; [split; [done | intros _; by eexists]|].
    split; [intros Hf; congruence|].
    intros Hin. exfalso.
    assert (Hin' : "" ∈ codePointsOf capture).
    { unfold codePointsOf. apply list_elem_of_filter. split; [done | exact Hin]. }
    rewrite forallb_forall in Hall. apply list_elem_of_In in Hin'.
    specialize (Hall _ Hin'). by rewrite validCode_empty in Hall.
  - assert (Hall : forallb validCode (codePointsOf capture) = false).
    { apply not_true_is_false. intros Ht. apply Hv in Ht. by destruct Ht. }
    split.
    { split; [|intros Ht; congruence].
      intros (units & Hu). injection Hu as Hp _. unfold fallbackPreview in Hp.
      destruct (includes name emojiMapKeys), (includes name objectPrototypeKeys);
        discriminate Hp. }
    split; [intros _; by repeat split|].
    done.
Qed.

Lemma preview_from_url_iff_valid_witness :
  matchUnicode "https://x/unicode/1f468--1f469.png" = Some "1f468--1f469"
  /\ result (getEmojiPreview "couple" "https://x/unicode/1f468--1f469.png" demoState)
     = Returned (fallbackPreview "couple").
Proof.
  split; [reflexivity|].
  apply (proj1 (proj1 (proj2
    (preview_from_url_iff_valid "couple" "https://x/unicode/1f468--1f469.png"
       "1f468--1f469" demoState eq_refl)) eq_refl)).
Defined.

Lemma stripPrefix_app (p s : string) : stripPrefix p (p +:+ s) = Some s.
Proof.
  induction p as [|c p IH]; [by destruct s|].
  rewrite append_cons. cbn [stripPrefix]. by rewrite Ascii.eqb_refl.
Qed.

Lemma stripPrefix_Some (p s r : string) : stripPrefix p s = Some r -> s = p +:+ r.
Proof.
  revert s. induction p as [|c p IH]; intros s.
  - destruct s; cbn [stripPrefix]; intros [= <-]; reflexivity.
  - destruct s as [|d s]; cbn [stripPrefix]; [done|].
    destruct (Ascii.eqb c d) eqn:Hcd; [|done].
    apply Ascii.eqb_eq in Hcd as ->. intros H. rewrite append_cons. by rewrite (IH s H).
Qed.

Lemma occursIn_false (p s : string) :
  occursIn p s = false -> forall pre post, s <> pre +:+ p +:+ post.
Proof.
  intros Hocc pre. revert s Hocc. induction pre as [|c pre IH]; intros s Hocc post ->.
  - change ("" +:+ p +:+ post) with (p +:+ post) in Hocc.
    destruct (p +:+ post) eqn:E; cbn [occursIn] in Hocc;
      rewrite <- E, stripPrefix_app in Hocc; discriminate.
  - rewrite append_cons in Hocc. cbn [occursIn] in Hocc.
    destruct (stripPrefix p (String c (pre +:+ p +:+ post))); [discriminate|].
    by apply (IH _ Hocc post).
Qed.

Lemma matchUnicode_absent (url : string) :
  (forall pre post, url <> pre +:+ "/unicode/" +:+ post) -> matchUnicode url = None.
Proof.
  induction url as [|c url IH]; intros Habs.
  - reflexivity.
  - cbn [matchUnicode].
    assert (Hhere : matchHere (String c url) = None).
    { unfold matchHere. destruct (stripPrefix "/unicode/" (String c url)) as [s1|] eqn:Hs; [|done].
      apply stripPrefix_Some in Hs. by destruct (Habs "" s1). }
    rewrite Hhere. apply IH. intros pre post ->.
    by apply (Habs (String c pre) post).
Qed.

(** X20. For a URL in which "/unicode/" does not occur (a custom image such
    as the one of "octocat"), nothing is parsed and nothing is logged: the
    preview is the glyph of the built-in table when the name is one of its
    twenty keys, and otherwise, for a name that is not a member of
    [Object.prototype], the shortcode ":name:". *)
Theorem url_without_directory_uses_name (name url : string) (s : State) :
  (forall pre post, url <> pre +:+ "/unicode/" +:+ post) ->
  getEmojiPreview name url s = (Returned (fallbackPreview name), s)
  /\ (name ∈ emojiMapKeys -> fallbackPreview name = MapGlyph name)
  /\ (name ∉ emojiMapKeys -> name ∉ objectPrototypeKeys ->
      fallbackPreview name = Shortcode (":" +:+ name +:+ ":")).
Proof.
  intros Habs.
  assert (Hinc : forall l, includes name l = true <-> name ∈ l).
  { intros l. unfold includes. rewrite existsb_exists. split.
    - intros (x & Hx & Heq). apply String.eqb_eq in Heq as ->. by apply list_elem_of_In.
    - intros Hin. exists name. split; [by apply list_elem_of_In | apply String.eqb_refl]. }
  split.
  { unfold getEmojiPreview. by rewrite (matchUnicode_absent url Habs). }
  unfold fallbackPreview. split.
  - intros Hin. apply Hinc in Hin. by rewrite Hin.
  - intros H1 H2.
    destruct (includes name emojiMapKeys) eqn:E1; [by apply Hinc in E1|].
    destruct (includes name objectPrototypeKeys) eqn:E2; [by apply Hinc in E2|].
    reflexivity.
Qed.

Lemma url_without_directory_uses_name_witness :
  (forall pre post,
     "https://github.githubassets.com/images/icons/emoji/octocat.png?v8"
     <> pre +:+ "/unicode/" +:+ post)
  /\ getEmojiPreview "octocat"
       "https://github.githubassets.com/images/icons/emoji/octocat.png?v8" demoState
     = (Returned (fallbackPreview "octocat"), demoState).
Proof.
  assert (H : forall pre post,
     "https://github.githubassets.com/images/icons/emoji/octocat.png?v8"
     <> pre +:+ "/unicode/" +:+ post).
  { apply occursIn_false. reflexivity. }
  split; [exact H|].
  apply (proj1 (url_without_directory_uses_name "octocat"
                  "https://github.githubassets.com/images/icons/emoji/octocat.png?v8"
                  demoState H)).
Defined.

(** * Properties of the quick pick order *)

Section QuickPickOrder.

Variable localeCompare : string -> string -> Z.

Lemma insertItem_perm (x : EmojiCacheItem) (l : list EmojiCacheItem) :
  insertItem localeCompare x l ≡ₚ x :: l.
Proof.
  induction l as [|y l IH]; cbn [insertItem]; [done|].
  destruct (compareItems localeCompare x y <=? 0); [done|].
  rewrite IH. apply Permutation_swap.
Qed.

Lemma sortItems_perm (l : list EmojiCacheItem) : sortItems localeCompare l ≡ₚ l.
Proof.
  induction l as [|x l IH]; [done|].
  unfold sortItems in *. cbn [foldr]. by rewrite insertItem_perm, IH.
Qed.

Lemma compareItems_le_popular (x y : EmojiCacheItem) :
  compareItems localeCompare x y <= 0 -> popularOrder x y.
Proof.
  unfold popularOrder, isPopular, priority, compareItems. intros Hle Hy.
  rewrite Hy in Hle.
  destruct (indexOf (name x) popularEmojis =? -1); cbn [negb andb] in Hle; [lia|].
  split; [done | lia].
Qed.

Lemma compareItems_gt_popular (x y : EmojiCacheItem) :
  0 < compareItems localeCompare x y -> popularOrder y x.
Proof.
  unfold popularOrder, isPopular, priority, compareItems. intros Hgt Hx.
  rewrite Hx in Hgt.
  destruct (indexOf (name y) popularEmojis =? -1); cbn [negb andb] in Hgt; [lia|].
  split; [done | lia].
Qed.

Lemma insertItem_popularOrder (x : EmojiCacheItem) (l : list EmojiCacheItem) :
  StronglySorted popularOrder l ->
  StronglySorted popularOrder (insertItem localeCompare x l).
Proof.
  induction l as [|y l IH]; intros Hl; cbn [insertItem].
  - by repeat constructor.
  - apply StronglySorted_cons in Hl as (Hy & Hl).
    destruct (compareItems localeCompare x y <=? 0) eqn:Hc.
    + apply Z.leb_le, compareItems_le_popular in Hc.
      apply StronglySorted_cons. split; [|by apply StronglySorted_cons].
      apply Forall_cons. split; [exact Hc|].
      rewrite Forall_forall in Hy |- *. intros z Hz Hpz.
      destruct (Hy z Hz Hpz) as (Hpy & Hyz). destruct (Hc Hpy) as (Hpx & Hxy).
      split; [done | lia].
    + apply Z.leb_gt, compareItems_gt_popular in Hc.
      apply StronglySorted_cons. split; [|by apply IH].
      rewrite Forall_forall in Hy |- *. intros z Hz.
      rewrite insertItem_perm in Hz. apply elem_of_cons in Hz as [->|Hz]; [done|].
      by apply Hy.
Qed.

Lemma sortItems_popularOrder (l : list EmojiCacheItem) :
  StronglySorted popularOrder (sortItems localeCompare l).
Proof.
  induction l as [|x l IH]; [constructor|].
  unfold sortItems in *. cbn [foldr]. by apply insertItem_popularOrder.
Qed.

(** X21. Whatever comparison [localeCompare] makes, the items of the quick
    pick are the entries of the catalog, each as many times as it is
    there, arranged so that every item that precedes one of the ten
    popular emojis is itself popular and comes no later in the list of
    popular names. *)
Theorem quick_pick_popular_first (s : State) :
  quickPickItems localeCompare s ≡ₚ getAvailableEmojis s
  /\ StronglySorted popularOrder (quickPickItems localeCompare s)
  /\ (forall (i j : nat) (a b : EmojiCacheItem),
        quickPickItems localeCompare s !! i = Some a ->
        quickPickItems localeCompare s !! j = Some b ->
        (i < j)%nat -> isPopular b = true ->
        isPopular a = true /\ priority a <= priority b).
Proof.
  unfold quickPickItems. split; [apply sortItems_perm|].
  pose proof (sortItems_popularOrder (getAvailableEmojis s)) as Hs.
  split; [exact Hs|].
  intros i j a b Ha Hb Hij Hpb.
  set (S := sortItems localeCompare (getAvailableEmojis s)) in *.
  assert (Hsplit : S = take j S ++ drop j S) by by rewrite take_drop.
  rewrite Hsplit in Hs.
  apply (StronglySorted_app_1_elem_of _ _ _ a b Hs); [| |done].
  - apply list_elem_of_lookup. exists i. rewrite lookup_take_lt by done. done.
  - apply list_elem_of_lookup. exists 0%nat. rewrite lookup_drop. by rewrite Nat.add_0_r.
Qed.

Lemma indexOf_absent (x : string) (l : list string) :
  indexOf x l = -1 <-> x ∉ l.
Proof.
  induction l as [|y l IH]; cbn [indexOf].
  - split; [intros _; apply not_elem_of_nil | done].
  - destruct (String.eqb y x) eqn:Hyx.
    + apply String.eqb_eq in Hyx as ->. split; [done|].
      intros H. exfalso. apply H. by apply elem_of_cons; left.
    + apply String.eqb_neq in Hyx.
      destruct (indexOf x l =? -1) eqn:Hi.
      * apply Z.eqb_eq in Hi. split; [|done]. intros _.
        apply not_elem_of_cons. split; [done | by apply IH].
      * apply Z.eqb_neq in Hi. split.
        -- intros H. assert (0 <= indexOf x l \/ indexOf x l = -1) as [?|?]; [|lia|done].
           clear -l. induction l as [|z l IHl]; cbn [indexOf]; [by right|].
           destruct (String.eqb z x); [left; lia|].
           destruct (indexOf x l =? -1); [by right | left; lia].
        -- intros H. apply not_elem_of_cons in H as [_ H]. by apply IH in H.
Qed.

Lemma indexOf_bounds (x : string) (l : list string) : -1 <= indexOf x l.
Proof.
  induction l as [|y l IH]; cbn [indexOf]; [done|].
  destruct (String.eqb y x); [done|]. destruct (indexOf x l =? -1); lia.
Qed.

Lemma indexOf_inj (x y : string) (l : list string) :
  x ∈ l -> indexOf x l = indexOf y l -> x = y.
Proof.
  induction l as [|z l IH]; intros Hx; [by apply elem_of_nil in Hx|].
  cbn [indexOf].
  destruct (String.eqb z x) eqn:Hzx, (String.eqb z y) eqn:Hzy.
  - apply String.eqb_eq in Hzx, Hzy. congruence.
  - pose proof (indexOf_bounds y l). destruct (indexOf y l =? -1) eqn:Hj; intros ?; lia.
  - pose proof (indexOf_bounds x l).
    destruct (indexOf x l =? -1) eqn:Hi; [|intros ?; lia].
    apply Z.eqb_eq, indexOf_absent in Hi. apply String.eqb_neq in Hzx.
    apply elem_of_cons in Hx as [->|Hx]; done.
  - apply String.eqb_neq in Hzx. apply elem_of_cons in Hx as [->|Hx]; [done|].
    destruct (indexOf x l =? -1) eqn:Hi.
    { apply Z.eqb_eq, indexOf_absent in Hi. done. }
    destruct (indexOf y l =? -1) eqn:Hj.
    { pose proof (indexOf_bounds x l). apply Z.eqb_neq in Hi. intros ?; lia. }
    intros H. apply IH; [done | lia].
Qed.

Lemma isPopular_elem (e : EmojiCacheItem) :
  isPopular e = true <-> name e ∈ popularEmojis.
Proof.
  unfold isPopular. rewrite negb_true_iff, Z.eqb_neq, indexOf_absent.
  split; [apply dec_stable | by intros H Hn].
Qed.

Lemma popularOrder_split (l : list EmojiCacheItem) :
  StronglySorted popularOrder l ->
  l = filter (fun e => isPopular e = true) l ++ filter (fun e => isPopular e = false) l.
Proof.
  induction l as [|a l IH]; intros Hl; [done|].
  apply StronglySorted_cons in Hl as (Ha & Hl).
  destruct (isPopular a) eqn:Hpa.
  - rewrite filter_cons_True by done. rewrite (filter_cons_False _ a) by by rewrite Hpa.
    cbn [app]. f_equal. by apply IH.
  - assert (Hnone : Forall (fun e => isPopular e = false) l).
    { rewrite Forall_forall in Ha |- *. intros z Hz.
      destruct (isPopular z) eqn:Hpz; [|done].
      destruct (Ha z Hz Hpz) as (Hc & _). congruence. }
    rewrite filter_cons_False by by rewrite Hpa.
    rewrite (filter_cons_True _ a) by done.
    assert (filter (fun e => isPopular e = true) l = []) as ->.
    { clear -Hnone. induction Hnone as [|z l Hz Hl IHl]; [done|].
      rewrite filter_cons_False by by rewrite Hz. done. }
    assert (filter (fun e => isPopular e = false) l = l) as ->; [|done].
    clear -Hnone. induction Hnone as [|z l Hz Hl IHl]; [done|].
    rewrite filter_cons_True by done. by rewrite IHl.
Qed.

Lemma StronglySorted_filter_names (l : list EmojiCacheItem) :
  StronglySorted popularOrder l ->
  StronglySorted (fun n1 n2 => indexOf n1 popularEmojis <= indexOf n2 popularEmojis)
                 (map name (filter (fun e => isPopular e = true) l)).
Proof.
  induction l as [|a l IH]; intros Hl; [constructor|].
  apply StronglySorted_cons in Hl as (Ha & Hl).
  destruct (isPopular a) eqn:Hpa.
  - rewrite filter_cons_True by done. cbn [map]. apply StronglySorted_cons.
    split; [|by apply IH].
    pose proof (proj1 (Forall_forall _ _) Ha) as Ha'.
    apply Forall_forall. intros n Hn.
    apply list_elem_of_fmap in Hn as (z & -> & Hz).
    apply list_elem_of_filter in Hz as (Hpz & Hz).
    by destruct (Ha' z Hz Hpz) as (_ & Hle).
  - rewrite filter_cons_False by by rewrite Hpa. by apply IH.
Qed.

(** X22. When the names of the catalog are pairwise distinct and the ten
    popular names are all among them (as in the directory the remote
    service publishes), the first ten items of the quick pick are the
    popular emojis in the order of the list of the source: computer,
    rocket, zap, fire, coffee, brain, eyes, hammer, wrench, bulb. *)
Theorem quick_pick_starts_with_popular (s : State) :
  NoDup (map name (getAvailableEmojis s)) ->
  (forall n, n ∈ popularEmojis -> n ∈ map name (getAvailableEmojis s)) ->
  take 10 (map name (quickPickItems localeCompare s)) = popularEmojis.
Proof.
  intros Hnd Hall. unfold quickPickItems.
  set (S := sortItems localeCompare (getAvailableEmojis s)).
  pose proof (sortItems_perm (getAvailableEmojis s)) as Hperm. fold S in Hperm.
  pose proof (sortItems_popularOrder (getAvailableEmojis s)) as Hsorted. fold S in Hsorted.
  set (P := filter (fun e => isPopular e = true) S).
  assert (HndS : NoDup (map name S)) by by rewrite Hperm.
  assert (HndP : NoDup (map name P)).
  { apply (sublist_NoDup (map name P) (map name S)); [exact HndS|].
    apply (fmap_sublist name). apply sublist_filter. }
  assert (Hnames : map name P = popularEmojis).
  { apply (StronglySorted_unique_strong
             (fun n1 n2 => indexOf n1 popularEmojis <= indexOf n2 popularEmojis)).
    - intros x1 x2 _ H2 H12 H21. symmetry. apply (indexOf_inj x2 x1 popularEmojis); [done | lia].
    - by apply StronglySorted_filter_names.
    - unfold popularEmojis. repeat (apply StronglySorted_cons; split;
        [repeat (apply Forall_cons; split; [by vm_compute|]); apply Forall_nil_2|]).
      constructor.
    - apply NoDup_Permutation; [done | by apply (bool_decide_unpack _); vm_compute|].
      intros n. split.
      + intros Hn. apply list_elem_of_fmap in Hn as (e & -> & He).
        apply list_elem_of_filter in He as (Hpe & _). by apply isPopular_elem.
      + intros Hn. specialize (Hall n Hn). rewrite <- Hperm in Hall.
        apply list_elem_of_fmap in Hall as (e & -> & He).
        apply list_elem_of_fmap. exists e. split; [done|].
        apply list_elem_of_filter. split; [by apply isPopular_elem | done]. }
  rewrite (popularOrder_split S Hsorted). fold P.
  rewrite map_app, Hnames.
  change 10%nat with (length popularEmojis). by rewrite take_app_length.
Qed.

(** X23. When [localeCompare] is a consistent comparator (a positive
    answer one way means a non-positive answer the other way, and the
    non-positive answers chain), the items of the quick pick that are not
    popular are in the order of [localeCompare] on their names. *)
Theorem quick_pick_rest_in_locale_order (s : State) :
  (forall a b, 0 < localeCompare a b -> localeCompare b a <= 0) ->
  (forall a b c, localeCompare a b <= 0 -> localeCompare b c <= 0 -> localeCompare a c <= 0) ->
  StronglySorted (fun a b => localeCompare (name a) (name b) <= 0)
                 (filter (fun e => isPopular e = false) (quickPickItems localeCompare s)).
Proof.
  intros Hsym Htrans. unfold quickPickItems.
  set (R := fun a b : EmojiCacheItem =>
              isPopular a = false -> isPopular b = false ->
              localeCompare (name a) (name b) <= 0).
  assert (Hcmp : forall x y, isPopular x = false -> isPopular y = false ->
            compareItems localeCompare x y = localeCompare (name x) (name y)).
  { intros x y Hx Hy. unfold compareItems. unfold isPopular in Hx, Hy.
    by rewrite Hx, Hy. }
  assert (Hpop : forall x y, isPopular x = false -> isPopular y = true ->
            compareItems localeCompare x y = 1).
  { intros x y Hx Hy. unfold compareItems. unfold isPopular in Hx, Hy.
    by rewrite Hx, Hy. }
  assert (Hins : forall x l, StronglySorted R l ->
            StronglySorted R (insertItem localeCompare x l)).
  { intros x l. induction l as [|y l IH]; intros Hl; cbn [insertItem].
    - by repeat constructor.
    - apply StronglySorted_cons in Hl as (Hy & Hl).
      destruct (compareItems localeCompare x y <=? 0) eqn:Hc.
      + apply Z.leb_le in Hc.
        apply StronglySorted_cons. split; [|by apply StronglySorted_cons].
        assert (Hxy : R x y).
        { intros Hx Hy'. by rewrite <- Hcmp. }
        apply Forall_cons. split; [exact Hxy|].
        rewrite Forall_forall in Hy |- *. intros z Hz Hx Hpz.
        destruct (isPopular y) eqn:Hpy.
        * rewrite (Hpop x y Hx Hpy) in Hc. lia.
        * apply (Htrans _ (name y)); [by apply Hxy | by apply Hy].
      + apply Z.leb_gt in Hc.
        apply StronglySorted_cons. split; [|by apply IH].
        rewrite Forall_forall in Hy |- *. intros z Hz.
        rewrite insertItem_perm in Hz. apply elem_of_cons in Hz as [->|Hz]; [|by apply Hy].
        intros Hpy Hpx. apply Hsym. by rewrite <- Hcmp.
  }
  assert (Hs : forall l, StronglySorted R (sortItems localeCompare l)).
  { intros l. induction l as [|x l IH]; [constructor|].
    unfold sortItems in *. cbn [foldr]. by apply Hins. }
  specialize (Hs (getAvailableEmojis s)).
  induction Hs as [|a l Hl IH Ha]; [constructor|].
  destruct (isPopular a) eqn:Hpa.
  - rewrite filter_cons_False by by rewrite Hpa. exact IH.
  - rewrite filter_cons_True by done. apply StronglySorted_cons. split; [|exact IH].
    rewrite Forall_forall in Ha |- *. intros z Hz.
    apply list_elem_of_filter in Hz as (Hpz & Hz). by apply Ha.
Qed.

End QuickPickOrder.

Lemma quick_pick_starts_with_popular_witness :
  NoDup (map name (getAvailableEmojis pickerState))
  /\ (forall n, n ∈ popularEmojis -> n ∈ map name (getAvailableEmojis pickerState))
  /\ take 10 (map name (quickPickItems byLength pickerState)) = popularEmojis.
Proof.
  assert (H1 : NoDup (map name (getAvailableEmojis pickerState))).
  { apply (bool_decide_unpack _). by vm_compute. }
  assert (H2 : forall n, n ∈ popularEmojis -> n ∈ map name (getAvailableEmojis pickerState)).
  { apply Forall_forall. apply (bool_decide_unpack _). by vm_compute. }
  split; [exact H1|]. split; [exact H2|].
  apply (quick_pick_starts_with_popular byLength pickerState H1 H2).
Defined.

Lemma quick_pick_rest_in_locale_order_witness :
  (forall a b, 0 < byLength a b -> byLength b a <= 0)
  /\ (forall a b c, byLength a b <= 0 -> byLength b c <= 0 -> byLength a c <= 0)
  /\ StronglySorted (fun a b => byLength (name a) (name b) <= 0)
                    (filter (fun e => isPopular e = false) (quickPickItems byLength pickerState)).
Proof.
  assert (H1 : forall a b, 0 < byLength a b -> byLength b a <= 0).
  { unfold byLength. intros a b. lia. }
  assert (H2 : forall a b c, byLength a b <= 0 -> byLength b c <= 0 -> byLength a c <= 0).
  { unfold byLength. intros a b c. lia. }
  split; [exact H1|]. split; [exact H2|].
  apply (quick_pick_rest_in_locale_order byLength pickerState H1 H2).
Defined.

(** * The blacklist *)

Lemma includes_elem (x : string) (l : list string) : includes x l = true <-> x ∈ l.
Proof.
  unfold includes. rewrite existsb_exists. split.
  - intros (y & Hy & Heq). apply String.eqb_eq in Heq as ->. by apply list_elem_of_In.
  - intros Hin. exists x. split; [by apply list_elem_of_In | apply String.eqb_refl].
Qed.

(** X24. Toggling the blacklist flips the membership of the workspace path
    and of no other path; and toggling twice a list that did not have the
    path gives the list back, entry for entry. *)
Theorem toggle_blacklist_flips_membership (blacklist : list string) (workspacePath : string) :
  includes workspacePath (toggleBlacklist blacklist workspacePath)
  = negb (includes workspacePath blacklist)
  /\ (forall other, other <> workspacePath ->
        includes other (toggleBlacklist blacklist workspacePath) = includes other blacklist)
  /\ (includes workspacePath blacklist = false ->
      toggleBlacklist (toggleBlacklist blacklist workspacePath) workspacePath = blacklist).
Proof.
  assert (Hb : forall x l b, (includes x l = true <-> b = true) -> includes x l = b).
  { intros x l b H. destruct (includes x l), b; try done.
    - symmetry. by apply H.
    - by apply H. }
  unfold toggleBlacklist.
  destruct (includes workspacePath blacklist) eqn:Hin; cbn [negb].
  - split; [|split; [|done]].
    + apply Hb. rewrite includes_elem, list_elem_of_filter. split; [by intros [? _] | done].
    + intros other Hne. apply Hb. rewrite !includes_elem, list_elem_of_filter. tauto.
  - split; [|split].
    + apply includes_elem. apply elem_of_app. right. by apply elem_of_cons; left.
    + intros other Hne. apply Hb. rewrite !includes_elem, elem_of_app.
      split; [|tauto]. intros [H|H]; [done|].
      apply elem_of_cons in H as [H|H]; [done | by apply elem_of_nil in H].
    + intros _.
      assert (includes workspacePath (blacklist ++ [workspacePath]) = true) as ->.
      { apply includes_elem. apply elem_of_app. right. by apply elem_of_cons; left. }
      rewrite filter_app, filter_cons_False by (by intros H).
      rewrite filter_nil, app_nil_r.
      assert (Hnot : workspacePath ∉ blacklist).
      { intros H. apply includes_elem in H. congruence. }
      clear Hin. induction blacklist as [|y l IH]; [done|].
      apply not_elem_of_cons in Hnot as [Hy Hl].
      rewrite filter_cons_True by done. by rewrite IH.
Qed.

Lemma toggle_blacklist_flips_membership_witness :
  includes "/work/demo" ["/work/other"] = false
  /\ toggleBlacklist (toggleBlacklist ["/work/other"] "/work/demo") "/work/demo"
     = ["/work/other"].
Proof.
  split; [reflexivity|].
  apply (proj2 (proj2 (toggle_blacklist_flips_membership ["/work/other"] "/work/demo")) eq_refl).
Defined.
